(** * Risk-indicator dashboard (app.py): a shallow embedding and its properties

    The analytics of [app.py] are embedded as Rocq functions:
    - Python [float] (numpy [float64]) is the kernel's binary64 [float], so a
      comparison with an absent value ([nan]) is false exactly as in the code;
    - Python [int] is [Z]; Python [str] is [string] where only equality is
      used and a list of code points where the code searches and slices;
    - a pandas [Series] is its list of (date, value) rows, a [DataFrame] its
      index together with a finite map from column names to columns;
    - code that can raise returns a [result]; code that talks to Streamlit or
      to the data provider threads an explicit state. *)

From Stdlib Require Import ZArith List String Ascii Bool Lia Sorted Permutation.
From Stdlib Require Import Floats.
From stdpp Require Import base option list gmap strings.

#[local] Set Warnings "-inexact-float".
#[local] Open Scope string_scope.
#[local] Open Scope list_scope.
#[local] Open Scope Z_scope.

(** ** Exceptions *)

Inductive exn : Type :=
| IndexError
| KeyError (key : string)
| ValueError (msg : string)
| ProviderError (msg : string).

Inductive result (A : Type) : Type :=
| Ok (a : A)
| Raise (e : exn).
Arguments Ok {A} a.
Arguments Raise {A} e.

#[global] Instance result_ret : MRet result := fun A a => Ok a.
#[global] Instance result_bind : MBind result := fun A B f m =>
  match m with
  | Ok a => f a
  | Raise e => Raise e
  end.

(** ** Floating-point values *)

Module PyFloat.

(** [x < y], [x > y], [x >= y] and [x - y] on [float64]. *)
Definition lt (x y : float) : bool := PrimFloat.ltb x y.
Definition gt (x y : float) : bool := PrimFloat.ltb y x.
Definition ge (x y : float) : bool := PrimFloat.leb y x.
Definition sub (x y : float) : float := PrimFloat.sub x y.

(** [pd.isna] on a float: the value differs from itself. *)
Definition isna (x : float) : bool := negb (PrimFloat.eqb x x).

End PyFloat.

(** ** Series and data frames *)

(** A date is its ordinal (days); only the order of dates is used. *)
Definition date : Type := Z.

(** A [Series]: the rows in storage order. *)
Definition Series : Type := list (date * float).

Definition s_index (s : Series) : list date := map fst s.
Definition s_values (s : Series) : list float := map snd s.

(** A row of a frame ([df.iloc[i]]): column name to value. *)
Definition Row : Type := gmap string float.

Record DataFrame : Type := mkDataFrame {
  df_index : list date;
  df_columns : gmap string (list float)
}.

(** Every column is as long as the index. *)
Definition df_wf (df : DataFrame) : Prop :=
  forall (c : string) (col : list float),
    df_columns df !! c = Some col -> length col = length (df_index df).

(** [df.iloc[-1]]: the last row; [IndexError] on an empty frame. *)
Definition iloc_last (df : DataFrame) : result Row :=
  match df_index df with
  | [] => Raise IndexError
  | _ :: _ => Ok (omap (fun col : list float => last col) (df_columns df))
  end.

(** [row[key]]: [KeyError] when the label is missing. *)
Definition getitem (row : Row) (key : string) : result float :=
  match row !! key with
  | Some v => Ok v
  | None => Raise (KeyError key)
  end.

(** [s.dropna()] on the values of a column. *)
Definition dropna (col : list float) : list float :=
  filter (fun v => PyFloat.isna v = false) col.

(** ** Composite risk scoring: [assess_macro_risk] *)

Module Risk.

(** The two accumulators of the function body. *)
Record acc : Type := mkAcc {
  risk_score : Z;
  warnings_ : list string
}.

(** [risk_score += n; warnings_.append(w)] *)
Definition bump (n : Z) (w : string) (a : acc) : acc :=
  {| risk_score := risk_score a + n; warnings_ := warnings_ a ++ [w] |}.

Definition w_curve_inverted := "🔴 수익률 곡선 역전 (경기침체 전조)".
Definition w_curve_flat := "⚠️ 수익률 곡선 평탄화 (역전 임박)".
Definition w_yield_high := "⚠️ 10년물 금리 고점 영역".
Definition w_yield_rising := "💡 10년물 금리 상승 추세".
Definition w_hy_spike := "🔴 하이일드 스프레드 급등".
Definition w_hy_wide := "⚠️ 하이일드 스프레드 확대".
Definition w_gap_excess := "💧 금리 괴리 과도 확대".
Definition w_gap_wide := "💧 금리 괴리 확대".
Definition w_cc_over5 := "🔴 신용카드 연체율 >5%".
Definition w_cc_surge := "🪳 신용카드 연체율 급등".
Definition w_cre_over3 := "🔴 CRE 연체율 >3%".
Definition w_cre_rising := "🏢 CRE 연체율 상승".
Definition w_auto_over3 := "🚗 오토론 연체율 >3%".
Definition w_auto_rising := "🚗 오토론 연체율 상승세".

(** 1) yield curve *)
Definition step_yield_curve (yc : float) (a : acc) : acc :=
  if PyFloat.lt yc 0 then bump 3 w_curve_inverted a
  else if PyFloat.lt yc 0.3 then bump 1 w_curve_flat a
  else a.

(** 2) 10-year yield *)
Definition step_dgs10 (d10 : float) (a : acc) : acc :=
  if PyFloat.gt d10 4.5 then bump 2 w_yield_high a
  else if PyFloat.gt d10 4.0 then bump 1 w_yield_rising a
  else a.

(** 3) high-yield spread *)
Definition step_hy_spread (hy : float) (a : acc) : acc :=
  if PyFloat.gt hy 5.0 then bump 3 w_hy_spike a
  else if PyFloat.gt hy 4.5 then bump 2 w_hy_wide a
  else a.

(** 4) rate gap *)
Definition step_rate_gap (rg : float) (a : acc) : acc :=
  if PyFloat.gt rg 1.0 then bump 2 w_gap_excess a
  else if PyFloat.gt rg 0.5 then bump 1 w_gap_wide a
  else a.

(** The guard shared by rules 5 to 7:
    [if name in df.columns: s = df[name].dropna(); if len(s) > 0: v = s.iloc[-1]; ...] *)
Definition with_latest_valid (df : DataFrame) (name : string)
    (body : float -> acc -> acc) (a : acc) : acc :=
  match df_columns df !! name with
  | Some col =>
      match last (dropna col) with
      | Some v => body v a
      | None => a
      end
  | None => a
  end.

(** 5) credit-card delinquency *)
Definition step_cc (cc_val : float) (a : acc) : acc :=
  if PyFloat.gt cc_val 5.0 then bump 3 w_cc_over5 a
  else if PyFloat.gt cc_val 3.5 then bump 2 w_cc_surge a
  else a.

(** 6) commercial real-estate delinquency *)
Definition step_cre (cre_val : float) (a : acc) : acc :=
  if PyFloat.gt cre_val 3.0 then bump 3 w_cre_over3 a
  else if PyFloat.gt cre_val 2.0 then bump 2 w_cre_rising a
  else a.

(** 7) auto-loan delinquency *)
Definition step_auto (au_val : float) (a : acc) : acc :=
  if PyFloat.gt au_val 3.0 then bump 2 w_auto_over3 a
  else if PyFloat.gt au_val 2.5 then bump 1 w_auto_rising a
  else a.

(** The grade of a score: label and colour. *)
Definition grade (score : Z) : string * string :=
  if score >=? 10 then ("🔴 CRITICAL RISK", "darkred")
  else if score >=? 7 then ("🔴 HIGH RISK", "red")
  else if score >=? 4 then ("🟡 MEDIUM RISK", "orange")
  else ("🟢 LOW RISK", "green").

(** The dictionary returned by [assess_macro_risk]. *)
Record assessment : Type := mkAssessment {
  score : Z;
  level : string;
  color : string;
  warnings : list string;
  latest : Row
}.

Definition assess_macro_risk (df : DataFrame) : result assessment :=
  latest ← iloc_last df;
  let a0 := {| risk_score := 0; warnings_ := [] |} in
  yc ← getitem latest "YIELD_CURVE";
  let a1 := step_yield_curve yc a0 in
  d10 ← getitem latest "DGS10";
  let a2 := step_dgs10 d10 a1 in
  hy ← getitem latest "HY_SPREAD";
  let a3 := step_hy_spread hy a2 in
  rg ← getitem latest "RATE_GAP";
  let a4 := step_rate_gap rg a3 in
  let a5 := with_latest_valid df "CC_DELINQ" step_cc a4 in
  let a6 := with_latest_valid df "CRE_DELINQ_ALL" step_cre a5 in
  let a7 := with_latest_valid df "AUTO_DELINQ" step_auto a6 in
  let '(lvl, col) := grade (risk_score a7) in
  mret {| score := risk_score a7; level := lvl; color := col;
          warnings := warnings_ a7; latest := latest |}.

End Risk.


(** *** The threshold rules as the specification lists them

    Each rule reads one value and has two cuts; [rule_below] fires when the
    value is under a cut, [rule_above] when it is over it. A rule whose value
    is not available contributes nothing. *)

Module RiskSpec.

Inductive direction : Type := rule_below | rule_above.

Record threshold_rule : Type := mkRule {
  dir : direction;
  first_cut : float;
  first_points : Z;
  first_warning : string;
  second_cut : float;
  second_points : Z;
  second_warning : string
}.

Definition crosses (d : direction) (x cut : float) : bool :=
  match d with
  | rule_below => PyFloat.lt x cut
  | rule_above => PyFloat.gt x cut
  end.

(** Points and warnings of one rule on one value. *)
Definition contribution (r : threshold_rule) (x : float) : Z * list string :=
  if crosses (dir r) x (first_cut r) then (first_points r, [first_warning r])
  else if crosses (dir r) x (second_cut r) then (second_points r, [second_warning r])
  else (0, []).

Definition contribution_opt (r : threshold_rule) (x : option float) : Z * list string :=
  match x with
  | Some v => contribution r v
  | None => (0, [])
  end.

Definition rule_curve := mkRule rule_below 0 3 Risk.w_curve_inverted 0.3 1 Risk.w_curve_flat.
Definition rule_yield := mkRule rule_above 4.5 2 Risk.w_yield_high 4.0 1 Risk.w_yield_rising.
Definition rule_spread := mkRule rule_above 5.0 3 Risk.w_hy_spike 4.5 2 Risk.w_hy_wide.
Definition rule_gap := mkRule rule_above 1.0 2 Risk.w_gap_excess 0.5 1 Risk.w_gap_wide.
Definition rule_card := mkRule rule_above 5.0 3 Risk.w_cc_over5 3.5 2 Risk.w_cc_surge.
Definition rule_cre := mkRule rule_above 3.0 3 Risk.w_cre_over3 2.0 2 Risk.w_cre_rising.
Definition rule_auto := mkRule rule_above 3.0 2 Risk.w_auto_over3 2.5 1 Risk.w_auto_rising.

(** The latest non-absent value of a column, when the frame has the column
    and the column has any data. *)
Definition latest_valid (df : DataFrame) (name : string) : option float :=
  col ← df_columns df !! name; last (dropna col).

(** The seven rules in order, each with the value it reads. *)
Definition rules_on (df : DataFrame) (yc d10 hy rg : float)
    : list (threshold_rule * option float) :=
  [ (rule_curve, Some yc); (rule_yield, Some d10); (rule_spread, Some hy);
    (rule_gap, Some rg);
    (rule_card, latest_valid df "CC_DELINQ");
    (rule_cre, latest_valid df "CRE_DELINQ_ALL");
    (rule_auto, latest_valid df "AUTO_DELINQ") ].

Definition total_score (rs : list (threshold_rule * option float)) : Z :=
  foldr (fun rx s => fst (contribution_opt (fst rx) (snd rx)) + s) 0 rs.

Definition all_warnings (rs : list (threshold_rule * option float)) : list string :=
  concat (map (fun rx => snd (contribution_opt (fst rx) (snd rx))) rs).

End RiskSpec.

(** ** Scenario determination: [determine_scenario] *)

Definition determine_scenario (yield_curve policy_spread : float) : Z :=
  let inverted := PyFloat.lt yield_curve 0 in
  let easing_expected := PyFloat.lt policy_spread 0 in
  if inverted && negb easing_expected then 1
  else if inverted && easing_expected then 2
  else if negb inverted && negb easing_expected then 3
  else 4.

(** ** Inversion detection: [find_inversion_periods] *)

Module Inversion.

(** The loop variables. [start] is [None] until the first inversion opens. *)
Record loop_state : Type := mkLoop {
  inversions : list (option date * date);
  in_inv : bool;
  start : option date
}.

Definition loop_init : loop_state :=
  {| inversions := []; in_inv := false; start := None |}.

(** One iteration of [for date, val in yield_curve_series.items()]. *)
Definition loop_body (st : loop_state) (item : date * float) : loop_state :=
  let '(d, val) := item in
  if PyFloat.isna val then st
  else if PyFloat.lt val 0 && negb (in_inv st) then
    {| inversions := inversions st; in_inv := true; start := Some d |}
  else if PyFloat.ge val 0 && in_inv st then
    {| inversions := inversions st ++ [(start st, d)]; in_inv := false;
       start := start st |}
  else st.

(** [series.index[-1]] *)
Definition index_last (s : Series) : result date :=
  match last (s_index s) with
  | Some d => Ok d
  | None => Raise IndexError
  end.

Definition find_inversion_periods (yield_curve_series : Series)
    : result (list (option date * date)) :=
  let st := fold_left loop_body yield_curve_series loop_init in
  if in_inv st then
    last_date ← index_last yield_curve_series;
    mret (inversions st ++ [(start st, last_date)])
  else mret (inversions st).

End Inversion.

(** ** Master dataset: [build_master_df] *)

Module Master.

(** [series_dict]: a Python dict, its items in insertion order. *)
Definition SeriesDict : Type := list (string * Series).

(** [series_dict[key]] *)
Fixpoint dict_get (sd : SeriesDict) (key : string) : result Series :=
  match sd with
  | [] => Raise (KeyError key)
  | (k, s) :: rest => if String.eqb k key then Ok s else dict_get rest key
  end.

(** [series_dict[key] = s] on a key the dict has (the item keeps its place). *)
Fixpoint dict_set (sd : SeriesDict) (key : string) (s : Series) : SeriesDict :=
  match sd with
  | [] => []
  | (k, s0) :: rest =>
      if String.eqb k key then (k, s) :: rest else (k, s0) :: dict_set rest key s
  end.

(** A strictly increasing index: monotonic and without duplicates. *)
Fixpoint increasing (idx : list date) : bool :=
  match idx with
  | a :: (b :: _) as rest => (a <? b) && increasing rest
  | _ => true
  end.

(** Padding for one target label: the value of the last row whose label does
    not exceed it, [nan] when there is none. Values are taken as they are: an
    absent value stored in the series is not skipped. *)
Definition pad_lookup (s : Series) (t : date) : float :=
  fold_left (fun found (row : date * float) =>
               if fst row <=? t then snd row else found) s nan.

(** [s.reindex(target, method='ffill')]. An index equal to the target is
    returned as it is; otherwise the source index has to be monotonic and
    unique. The model covers the increasing case, which is what
    [fetch_series_with_ffill] hands over after [sort_index]; pandas also pads a
    decreasing index, which the model leaves out as an error. *)
Definition reindex_ffill (s : Series) (target : list date) : result (list float) :=
  if decide (s_index s = target) then Ok (s_values s)
  else if increasing (s_index s) then Ok (map (pad_lookup s) target)
  else Raise (ValueError "index must be monotonic increasing or decreasing").

(** [df[name] = col] and [df[name]]. *)
Definition set_col (df : DataFrame) (name : string) (col : list float) : DataFrame :=
  mkDataFrame (df_index df) (<[name := col]> (df_columns df)).

Definition get_col (df : DataFrame) (name : string) : result (list float) :=
  match df_columns df !! name with
  | Some col => Ok col
  | None => Raise (KeyError name)
  end.

(** [for name, s in series_dict.items(): ...] *)
Fixpoint add_columns (items : SeriesDict) (df : DataFrame) : result DataFrame :=
  match items with
  | [] => Ok df
  | (name, s) :: rest =>
      if String.eqb name "DGS10" then add_columns rest df
      else
        col ← reindex_ffill s (df_index df);
        add_columns rest (set_col df name col)
  end.

(** [a - b] and [a.fillna(b)] on two columns of one frame. *)
Definition col_sub (a b : list float) : list float := zip_with PyFloat.sub a b.

Definition fillna (a b : list float) : list float :=
  zip_with (fun x y => if PyFloat.isna x then y else x) a b.

(** Rows kept by a boolean mask. *)
Fixpoint select {A : Type} (mask : list bool) (l : list A) : list A :=
  match mask, l with
  | b :: mask', x :: l' => if b then x :: select mask' l' else select mask' l'
  | _, _ => []
  end.

(** [df.dropna(subset=[name])] *)
Definition dropna_subset (name : string) (df : DataFrame) : result DataFrame :=
  key ← get_col df name;
  let mask := map (fun v => negb (PyFloat.isna v)) key in
  mret (mkDataFrame (select mask (df_index df)) (select mask <$> df_columns df)).

Definition build_master_df (series_dict : SeriesDict) : result DataFrame :=
  base ← dict_get series_dict "DGS10";
  let df := mkDataFrame (s_index base) {[ "DGS10" := s_values base ]} in
  df ← add_columns series_dict df;
  t10y2y ← dict_get series_dict "T10Y2Y";
  direct ← reindex_ffill t10y2y (df_index df);
  let df := set_col df "YIELD_CURVE_DIRECT" direct in
  dgs10 ← get_col df "DGS10";
  dgs2 ← get_col df "DGS2";
  let df := set_col df "YIELD_CURVE_CALC" (col_sub dgs10 dgs2) in
  yc_direct ← get_col df "YIELD_CURVE_DIRECT";
  yc_calc ← get_col df "YIELD_CURVE_CALC";
  let df := set_col df "YIELD_CURVE" (fillna yc_direct yc_calc) in
  dgs10 ← get_col df "DGS10";
  fedfunds ← get_col df "FEDFUNDS";
  let df := set_col df "RATE_GAP" (col_sub dgs10 fedfunds) in
  dgs2 ← get_col df "DGS2";
  effr ← get_col df "EFFR";
  let df := set_col df "POLICY_SPREAD" (col_sub dgs2 effr) in
  dropna_subset "DGS10" df.

(** The value of column [name] in row [i] of a frame. *)
Definition cell (df : DataFrame) (name : string) (i : nat) : option float :=
  col ← df_columns df !! name; col !! i.

End Master.

(** ** Section parsing: [extract_section] *)

Module Text.

(** A Python [str]: its code points. *)
Definition codepoint : Type := N.
Definition str : Type := list codepoint.

(** An ASCII literal of the source as a [str]. *)
Definition lit (s : string) : str := map N_of_ascii (list_ascii_of_string s).

(** [c.isspace()]: the white-space code points of Unicode. *)
Definition isspace (c : codepoint) : bool :=
  ((9 <=? c) && (c <=? 13) || (28 <=? c) && (c <=? 32)
   || (c =? 133) || (c =? 160) || (c =? 5760)
   || (8192 <=? c) && (c <=? 8202)
   || (c =? 8232) || (c =? 8233) || (c =? 8239) || (c =? 8287)
   || (c =? 12288))%N.

Fixpoint lstrip (s : str) : str :=
  match s with
  | c :: t => if isspace c then lstrip t else s
  | [] => []
  end.

Definition rstrip (s : str) : str := rev (lstrip (rev s)).

(** [s.strip()] *)
Definition strip (s : str) : str := rstrip (lstrip s).

(** [s.startswith(sub)] *)
Fixpoint startswith (sub s : str) : bool :=
  match sub, s with
  | [], _ => true
  | a :: sub', b :: s' => (a =? b)%N && startswith sub' s'
  | _ :: _, [] => false
  end.

(** The search of [find] over the text from position [pos] on. *)
Fixpoint find_at (sub rest : str) (pos : Z) : Z :=
  if startswith sub rest then pos
  else match rest with
       | [] => -1
       | _ :: t => find_at sub t (pos + 1)
       end.

(** [text.find(sub, start)]: the lowest index of an occurrence at or after
    [start], or [-1]. ([start] is never negative in this program.) *)
Definition find (text sub : str) (start : Z) : Z :=
  if (0 <=? start) && (start <=? Z.of_nat (length text))
  then find_at sub (drop (Z.to_nat start) text) start
  else -1.

(** [sub in text] *)
Definition contains (sub text : str) : bool := negb (find text sub 0 =? -1).

(** [text[start:stop]] for indices that are not negative. *)
Definition slice (text : str) (start stop : Z) : str :=
  take (Z.to_nat (stop - start)) (drop (Z.to_nat start) text).

(** [text.replace(old, new)] for a non-empty [old]: occurrences are replaced
    from left to right without overlap; [skip] counts the code points of the
    occurrence just replaced that are still to be passed over. *)
Fixpoint replace_go (old new text : str) (skip : nat) : str :=
  match text with
  | [] => []
  | c :: t =>
      match skip with
      | S k => replace_go old new t k
      | O =>
          if startswith old text
          then new ++ replace_go old new t (Nat.pred (length old))
          else c :: replace_go old new t 0
      end
  end.

Definition replace (old new text : str) : str := replace_go old new text 0.

Definition fence : str := lit "```".

Definition next_sections : list str :=
  [lit "MARKET_STATUS:"; lit "KEY_RISKS:"; lit "STRATEGY:";
   lit "FULL_ANALYSIS:"; fence].

(** One iteration of [for next_section in next_sections]. *)
Definition end_step (text section_name : str) (start : Z)
    (end_ : Z) (next_section : str) : Z :=
  if decide (next_section = section_name) then end_
  else
    let pos := find text next_section start in
    if negb (pos =? -1) && (pos <? end_) then pos else end_.

(** The first argument as the caller may pass it: a string, or [None]. *)
Inductive pyobj : Type :=
| PyNone
| PyStr (s : str).

(** [None] of the result is Python's [None]. With [text = None] the test
    [section_name not in text] raises a [TypeError], which the handler turns
    into [None]; on a string nothing in the body raises. *)
Definition extract_section (text : pyobj) (section_name : str) : option str :=
  match text with
  | PyNone => None
  | PyStr text =>
      if negb (contains section_name text) then None
      else
        let start := find text section_name 0 + Z.of_nat (length section_name) in
        let end_ :=
          fold_left (end_step text section_name start) next_sections
                    (Z.of_nat (length text)) in
        let section := strip (slice text start end_) in
        let section := strip (replace fence [] section) in
        Some section
  end.

End Text.


(** ** The script's state: session, secrets, rendered elements, provider log,
    clock and caches *)

Module App.

(** What Streamlit has been asked to render, in order. *)
Inductive ui_event : Type :=
| UiTitle (text : string)
| UiForm (key : string)
| UiError (msg : string)
| UiWarning (msg : string)
| UiSpinner (msg : string).

(** [st.secrets]: a store that cannot be read (reading raises), or the store
    with its ["passwords"] table when it has one. *)
Inductive secrets_store : Type :=
| SecretsBroken (e : exn)
| SecretsLoaded (passwords : option (gmap string string)).

(** An entry of a [st.cache_data] cache: the value and when it was stored. *)
Definition cache (K V : Type) `{Countable K} : Type := gmap K (V * Z).

Record world : Type := mkWorld {
  password_correct : option bool;
  secrets : secrets_store;
  ui : list ui_event;
  provider_calls : list (string * date);
  clock : Z;
  fetch_cache : cache (string * date * string) Series;
  load_cache : cache date Master.SeriesDict
}.

(** How a call ends: it returns, it raises an [Exception], or it asks for a
    rerun of the script ([st.rerun()] raises a control exception that is not
    an [Exception], so no handler of this program catches it). *)
Inductive outcome (A : Type) : Type :=
| Returned (a : A)
| Raised (e : exn)
| Rerun.
Arguments Returned {A} a.
Arguments Raised {A} e.
Arguments Rerun {A}.

Definition M (A : Type) : Type := world -> outcome A * world.

#[global] Instance M_ret : MRet M := fun A a w => (Returned a, w).
#[global] Instance M_bind : MBind M := fun A B f m w =>
  match m w with
  | (Returned a, w') => f a w'
  | (Raised e, w') => (Raised e, w')
  | (Rerun, w') => (Rerun, w')
  end.

Definition get_world : M world := fun w => (Returned w, w).
Definition modify (f : world -> world) : M unit := fun w => (Returned tt, f w).
Definition raise {A : Type} (e : exn) : M A := fun w => (Raised e, w).
Definition lift {A : Type} (r : result A) : M A :=
  match r with
  | Ok a => mret a
  | Raise e => raise e
  end.

(** [try: body except Exception as e: handler e] *)
Definition try_except {A : Type} (body : M A) (handler : exn -> M A) : M A :=
  fun w =>
    match body w with
    | (Raised e, w') => handler e w'
    | other => other
    end.

Definition render (ev : ui_event) : M unit :=
  modify (fun w => mkWorld (password_correct w) (secrets w) (ui w ++ [ev])
                     (provider_calls w) (clock w) (fetch_cache w) (load_cache w)).

Definition st_rerun {A : Type} : M A := fun w => (Rerun, w).

(** [str(e)] *)
Definition exn_str (e : exn) : string :=
  match e with
  | IndexError => "single positional indexer is out-of-bounds"
  | KeyError key => "'" +:+ key +:+ "'"
  | ValueError msg => msg
  | ProviderError msg => msg
  end.

(** [mapM] over a list, left to right. *)
Fixpoint for_each {A B : Type} (f : A -> M B) (l : list A) : M (list B) :=
  match l with
  | [] => mret []
  | a :: rest => b ← f a; bs ← for_each f rest; mret (b :: bs)
  end.

(** *** [st.cache_data(ttl=...)]

    The decorator belongs to Streamlit. It is modelled as its documentation
    describes it: results are stored per argument tuple together with the
    time of storing; a call whose arguments have an entry younger than [ttl]
    seconds returns the stored value without running the function; any other
    call runs the function and stores what it returns. A call that does not
    return stores nothing. *)
Definition cache_data {K V : Type} `{Countable K} (ttl : Z)
    (read : world -> cache K V) (write : cache K V -> world -> world)
    (f : K -> M V) (args : K) : M V :=
  fun w =>
    let run :=
      match f args w with
      | (Returned v, w') =>
          (Returned v, write (<[args := (v, clock w')]> (read w')) w')
      | other => other
      end in
    match read w !! args with
    | Some (v, stored_at) =>
        if clock w <? stored_at + ttl then (Returned v, w) else run
    | None => run
    end.

Definition write_fetch_cache (c : cache (string * date * string) Series)
    (w : world) : world :=
  mkWorld (password_correct w) (secrets w) (ui w) (provider_calls w) (clock w)
          c (load_cache w).

Definition write_load_cache (c : cache date Master.SeriesDict) (w : world) : world :=
  mkWorld (password_correct w) (secrets w) (ui w) (provider_calls w) (clock w)
          (fetch_cache w) c.

(** The script runs again at time [t]. *)
Definition at_time (t : Z) (w : world) : world :=
  mkWorld (password_correct w) (secrets w) (ui w) (provider_calls w) t
          (fetch_cache w) (load_cache w).

(** *** Sorting and forward fill *)

(** [s.sort_index()]: rows by date, rows of one date in their order. *)
Fixpoint insert_row (r : date * float) (s : Series) : Series :=
  match s with
  | [] => [r]
  | r' :: rest => if fst r <? fst r' then r :: s else r' :: insert_row r rest
  end.

Definition sort_index (s : Series) : Series := foldr insert_row [] (rev s).

Fixpoint ffill_from (prev : float) (s : Series) : Series :=
  match s with
  | [] => []
  | (d, v) :: rest =>
      let v' := if PyFloat.isna v then prev else v in
      (d, v') :: ffill_from v' rest
  end.

(** [s.ffill()]: an absent value takes the last value before it that is
    present; leading absent values stay. *)
Definition ffill (s : Series) : Series := ffill_from nan s.

Section Provider.

(** [fred.get_series(series_id, observation_start=start_date)] as the
    provider answers at a given time: the observations, or a failure. *)
Variable fred_get_series : Z -> string -> date -> result Series.

Definition get_series (series_id : string) (start_date : date) : M Series :=
  fun w =>
    let w' := mkWorld (password_correct w) (secrets w) (ui w)
                (provider_calls w ++ [(series_id, start_date)]) (clock w)
                (fetch_cache w) (load_cache w) in
    lift (fred_get_series (clock w) series_id start_date) w'.

(** [name or series_id] *)
Definition name_or (name series_id : string) : string :=
  if String.eqb name "" then series_id else name.

(** The body of [fetch_series_with_ffill]. *)
Definition fetch_series_with_ffill_body (args : string * date * string) : M Series :=
  let '(series_id, start_date, name) := args in
  try_except
    (data ← get_series series_id start_date;
     if (0 <? length data)%nat then mret (ffill (sort_index data))
     else mret [])
    (fun e =>
       render (UiWarning ("⚠️ " +:+ name_or name series_id +:+ " 수집 실패: "
                          +:+ exn_str e));;
       mret []).

Definition fetch_series_with_ffill (series_id : string) (start_date : date)
    (name : string) : M Series :=
  cache_data 3600 fetch_cache write_fetch_cache fetch_series_with_ffill_body
             (series_id, start_date, name).

(** The dict literal of [load_all_series]: key, provider identifier, name. *)
Definition SERIES : list (string * string * string) :=
  [ ("DGS10", "DGS10", "10년물 국채");
    ("DGS2", "DGS2", "2년물 국채");
    ("T10Y2Y", "T10Y2Y", "장단기 금리차");
    ("HY_SPREAD", "BAMLH0A0HYM2", "하이일드 스프레드");
    ("IG_SPREAD", "BAMLC0A0CM", "투자등급 스프레드");
    ("FEDFUNDS", "FEDFUNDS", "연준 기준금리");
    ("EFFR", "EFFR", "유효 연방기금금리");
    ("WALCL", "WALCL", "연준 총자산");
    ("CC_DELINQ", "DRCCLACBS", "신용카드 연체율");
    ("CONS_DELINQ", "DRCLACBS", "소비자 대출 연체율");
    ("AUTO_DELINQ", "DROCLACBS", "오토론 연체율");
    ("CRE_DELINQ_ALL", "DRCRELEXFACBS", "CRE 연체율");
    ("CRE_DELINQ_TOP100", "DRCRELEXFT100S", "CRE 연체율(Top100)");
    ("CRE_DELINQ_SMALL", "DRCRELEXFOBS", "CRE 연체율(기타)");
    ("RE_DELINQ_ALL", "DRSREACBS", "부동산 연체율");
    ("CRE_LOAN_AMT", "CREACBM027NBOG", "CRE 대출 총액") ].

Definition load_all_series_body (start_date : date) : M Master.SeriesDict :=
  render (UiSpinner "📡 FRED API에서 데이터 수집 중...");;
  for_each (fun entry : string * string * string =>
              let '(key, series_id, name) := entry in
              s ← fetch_series_with_ffill series_id start_date name;
              mret (key, s))
           SERIES.

Definition load_all_series (start_date : date) : M Master.SeriesDict :=
  cache_data 3600 load_cache write_load_cache load_all_series_body start_date.

End Provider.

(** *** The login gate: [check_password] *)

(** What the widgets of the form return in one run of the script. *)
Record form_input : Type := mkForm {
  username : string;
  password : string;
  submit_btn : bool
}.

Definition set_password_correct (b : bool) : M unit :=
  modify (fun w => mkWorld (Some b) (secrets w) (ui w) (provider_calls w)
                     (clock w) (fetch_cache w) (load_cache w)).

(** Reading [st.secrets]: raises when the store cannot be read. *)
Definition read_passwords : M (option (gmap string string)) :=
  w ← get_world;
  match secrets w with
  | SecretsBroken e => raise e
  | SecretsLoaded passwords => mret passwords
  end.

Definition msg_wrong_password : string := "😕 비밀번호가 올바르지 않습니다.".
Definition msg_no_such_user : string := "😕 존재하지 않는 아이디입니다.".

Definition check_password (inp : form_input) : M bool :=
  w ← get_world;
  if default false (password_correct w) then mret true
  else
    render (UiTitle "🔒 퀀트 대시보드 로그인");;
    render (UiForm "credentials");;
    (if submit_btn inp then
       try_except
         (passwords ← read_passwords;
          match passwords ≫= (fun table => table !! username inp) with
          | Some expected =>
              if String.eqb (password inp) expected then
                set_password_correct true;;
                st_rerun
              else render (UiError msg_wrong_password)
          | None => render (UiError msg_no_such_user)
          end)
         (fun e => render (UiError ("로그인 오류: " +:+ exn_str e)))
     else mret tt);;
    mret false.

End App.

(** ** Example inputs *)

Module Examples.

(** A frame of one row with the four indicators and no delinquency column. *)
Definition df_four_rules : DataFrame :=
  mkDataFrame [19000]
    (list_to_map [ ("YIELD_CURVE", [(-0.1)%float]); ("DGS10", [4.6%float]);
                   ("HY_SPREAD", [5.2%float]); ("RATE_GAP", [1.2%float]) ]).

(** The same frame with the yield curve and the spread absent. *)
Definition df_two_absent : DataFrame :=
  mkDataFrame [19000]
    (list_to_map [ ("YIELD_CURVE", [nan]); ("DGS10", [4.6%float]);
                   ("HY_SPREAD", [nan]); ("RATE_GAP", [1.2%float]) ]).

End Examples.

(** * Properties *)

(** ** Facts on floating-point comparisons *)

Section FloatFacts.

Lemma isna_nan (x : float) : PyFloat.isna x = true <-> Prim2SF x = S754_nan.
Proof.
  unfold PyFloat.isna. rewrite FloatAxioms.eqb_spec. unfold SFeqb.
  destruct (Prim2SF x) as [s|s| |s m e] eqn:E; simpl.
  - split; [discriminate|discriminate].
  - destruct s; split; discriminate.
  - split; reflexivity.
  - destruct s; rewrite Z.compare_refl, Pos.compare_cont_refl; simpl;
      split; discriminate.
Qed.

Lemma lt_nan_l (x y : float) : PyFloat.isna x = true -> PyFloat.lt x y = false.
Proof.
  intros H%isna_nan. unfold PyFloat.lt. rewrite FloatAxioms.ltb_spec, H. reflexivity.
Qed.

Lemma gt_nan_l (x y : float) : PyFloat.isna x = true -> PyFloat.gt x y = false.
Proof.
  intros H%isna_nan. unfold PyFloat.gt. rewrite FloatAxioms.ltb_spec, H. unfold SFltb.
  destruct (Prim2SF y); reflexivity.
Qed.

Lemma ge_nan_l (x y : float) : PyFloat.isna x = true -> PyFloat.ge x y = false.
Proof.
  intros H%isna_nan. unfold PyFloat.ge. rewrite FloatAxioms.leb_spec, H. unfold SFleb.
  destruct (Prim2SF y); reflexivity.
Qed.

(** On a value that is present, [val >= 0] is the negation of [val < 0]. *)
Lemma ge_zero_not_lt (x : float) :
  PyFloat.isna x = false -> PyFloat.ge x 0 = negb (PyFloat.lt x 0).
Proof.
  intros H. assert (Hn : Prim2SF x <> S754_nan).
  { intros E%isna_nan. congruence. }
  unfold PyFloat.ge, PyFloat.lt. rewrite FloatAxioms.leb_spec, FloatAxioms.ltb_spec.
  change (Prim2SF 0) with (S754_zero false).
  unfold SFleb, SFltb. destruct (Prim2SF x) as [s|s| |s m e]; simpl;
    try destruct s; try reflexivity; congruence.
Qed.

(** [val >= 0] and [val < 0] never hold together. *)
Lemma ge_zero_lt_excl (x : float) :
  PyFloat.ge x 0 = true -> PyFloat.lt x 0 = false.
Proof.
  intros H. destruct (PyFloat.isna x) eqn:E.
  - rewrite ge_nan_l in H by exact E. discriminate.
  - rewrite ge_zero_not_lt in H by exact E. destruct (PyFloat.lt x 0); easy.
Qed.

End FloatFacts.

(** ** Composite risk scoring *)

Section RiskFacts.

Import Risk RiskSpec.

(** Adding the contribution of a rule to the accumulators. *)
Definition add_contribution (c : Z * list string) (a : acc) : acc :=
  {| risk_score := risk_score a + fst c; warnings_ := warnings_ a ++ snd c |}.

Lemma acc_eta (a : acc) :
  {| risk_score := risk_score a + 0; warnings_ := warnings_ a ++ [] |} = a.
Proof. destruct a; simpl. rewrite Z.add_0_r, app_nil_r. reflexivity. Qed.

Ltac step_is_rule :=
  intros; unfold add_contribution, contribution, crosses, bump; simpl;
  repeat match goal with
         | |- context [if ?b then _ else _] => destruct b; simpl
         end;
  try reflexivity; symmetry; apply acc_eta.

Lemma step_yield_curve_rule yc a :
  step_yield_curve yc a = add_contribution (contribution rule_curve yc) a.
Proof. unfold step_yield_curve. step_is_rule. Qed.

Lemma step_dgs10_rule x a :
  step_dgs10 x a = add_contribution (contribution rule_yield x) a.
Proof. unfold step_dgs10. step_is_rule. Qed.

Lemma step_hy_spread_rule x a :
  step_hy_spread x a = add_contribution (contribution rule_spread x) a.
Proof. unfold step_hy_spread. step_is_rule. Qed.

Lemma step_rate_gap_rule x a :
  step_rate_gap x a = add_contribution (contribution rule_gap x) a.
Proof. unfold step_rate_gap. step_is_rule. Qed.

Lemma step_cc_rule x a :
  step_cc x a = add_contribution (contribution rule_card x) a.
Proof. unfold step_cc. step_is_rule. Qed.

Lemma step_cre_rule x a :
  step_cre x a = add_contribution (contribution rule_cre x) a.
Proof. unfold step_cre. step_is_rule. Qed.

Lemma step_auto_rule x a :
  step_auto x a = add_contribution (contribution rule_auto x) a.
Proof. unfold step_auto. step_is_rule. Qed.

Lemma with_latest_valid_rule df name body r a :
  (forall x b, body x b = add_contribution (contribution r x) b) ->
  with_latest_valid df name body a
  = add_contribution (contribution_opt r (latest_valid df name)) a.
Proof.
  intros Hb. unfold with_latest_valid, latest_valid.
  destruct (df_columns df !! name) as [col|]; simpl.
  - destruct (last (dropna col)); simpl; [apply Hb|].
    unfold add_contribution; simpl. symmetry; apply acc_eta.
  - unfold add_contribution; simpl. symmetry; apply acc_eta.
Qed.

(** The result of the function once the latest row and its four indicators
    are known. *)
Definition assessment_of (df : DataFrame) (row : Row) (yc d10 hy rg : float)
    : assessment :=
  let rs := rules_on df yc d10 hy rg in
  {| score := total_score rs;
     level := fst (grade (total_score rs));
     color := snd (grade (total_score rs));
     warnings := all_warnings rs;
     latest := row |}.

Lemma assess_macro_risk_eq df row yc d10 hy rg :
  iloc_last df = Ok row ->
  row !! "YIELD_CURVE" = Some yc -> row !! "DGS10" = Some d10 ->
  row !! "HY_SPREAD" = Some hy -> row !! "RATE_GAP" = Some rg ->
  assess_macro_risk df = Ok (assessment_of df row yc d10 hy rg).
Proof.
  intros Hrow Hyc Hd Hhy Hrg. unfold assess_macro_risk.
  rewrite Hrow. simpl. unfold getitem. rewrite Hyc, Hd, Hhy, Hrg. simpl.
  rewrite step_yield_curve_rule, step_dgs10_rule, step_hy_spread_rule,
    step_rate_gap_rule.
  rewrite (with_latest_valid_rule _ _ _ rule_auto) by apply step_auto_rule.
  rewrite (with_latest_valid_rule _ _ _ rule_cre) by apply step_cre_rule.
  rewrite (with_latest_valid_rule _ _ _ rule_card) by apply step_cc_rule.
  unfold assessment_of, rules_on, total_score, all_warnings, add_contribution.
  cbn [foldr map concat fst snd risk_score warnings_].
  set (c1 := contribution rule_curve yc).
  set (c2 := contribution rule_yield d10).
  set (c3 := contribution rule_spread hy).
  set (c4 := contribution rule_gap rg).
  set (c5 := contribution_opt rule_card _).
  set (c6 := contribution_opt rule_cre _).
  set (c7 := contribution_opt rule_auto _).
  replace (0 + c1.1 + c2.1 + c3.1 + c4.1 + c5.1 + c6.1 + c7.1)
    with (c1.1 + (c2.1 + (c3.1 + (c4.1 + (c5.1 + (c6.1 + (c7.1 + 0))))))) by lia.
  replace ((((((([] ++ c1.2) ++ c2.2) ++ c3.2) ++ c4.2) ++ c5.2) ++ c6.2) ++ c7.2)
    with (c1.2 ++ c2.2 ++ c3.2 ++ c4.2 ++ c5.2 ++ c6.2 ++ c7.2 ++ [])
    by (rewrite app_nil_r, <- !app_assoc; reflexivity).
  destruct (grade _); reflexivity.
Qed.

(** Whenever the function returns, it has read a latest row with the four
    indicators. *)
Lemma assess_macro_risk_inv df r :
  assess_macro_risk df = Ok r ->
  exists row yc d10 hy rg,
    iloc_last df = Ok row /\
    row !! "YIELD_CURVE" = Some yc /\ row !! "DGS10" = Some d10 /\
    row !! "HY_SPREAD" = Some hy /\ row !! "RATE_GAP" = Some rg /\
    r = assessment_of df row yc d10 hy rg.
Proof.
  intros H.
  destruct (iloc_last df) as [row|e] eqn:Hrow;
    [|unfold assess_macro_risk in H; rewrite Hrow in H; discriminate].
  destruct (row !! "YIELD_CURVE") as [yc|] eqn:Hyc;
    [|unfold assess_macro_risk, getitem in H; rewrite Hrow in H; simpl in H;
      rewrite Hyc in H; discriminate].
  destruct (row !! "DGS10") as [d10|] eqn:Hd;
    [|unfold assess_macro_risk, getitem in H; rewrite Hrow in H; simpl in H;
      rewrite Hyc in H; simpl in H; rewrite Hd in H; discriminate].
  destruct (row !! "HY_SPREAD") as [hy|] eqn:Hhy;
    [|unfold assess_macro_risk, getitem in H; rewrite Hrow in H; simpl in H;
      rewrite Hyc in H; simpl in H; rewrite Hd in H; simpl in H;
      rewrite Hhy in H; discriminate].
  destruct (row !! "RATE_GAP") as [rg|] eqn:Hrg;
    [|unfold assess_macro_risk, getitem in H; rewrite Hrow in H; simpl in H;
      rewrite Hyc in H; simpl in H; rewrite Hd in H; simpl in H;
      rewrite Hhy in H; simpl in H; rewrite Hrg in H; discriminate].
  exists row, yc, d10, hy, rg. repeat split; try assumption.
  rewrite (assess_macro_risk_eq df row yc d10 hy rg) in H by assumption.
  congruence.
Qed.

End RiskFacts.

Section RiskTheorems.

Import Risk RiskSpec.

(** C1. On a frame whose latest row has the four indicators,
    [assess_macro_risk] returns, and its score is the sum of the seven
    threshold rules of the specification taken in their order (yield curve,
    10-year yield, high-yield spread, rate gap on the latest row; credit-card,
    commercial real-estate and auto-loan delinquency on the latest value of
    the column that is present), its warnings are the warnings of the rules
    that fired, in rule order. With a yield curve of -0.1, a 10-year yield of
    4.6, a spread of 5.2, a rate gap of 1.2 and no delinquency data, the score
    is 10 and the warnings are those of the curve, the yield, the spread and
    the gap, in this order. *)
Theorem assess_macro_risk_sums_rules (df : DataFrame) (row : Row)
    (yc d10 hy rg : float) :
  iloc_last df = Ok row ->
  row !! "YIELD_CURVE" = Some yc -> row !! "DGS10" = Some d10 ->
  row !! "HY_SPREAD" = Some hy -> row !! "RATE_GAP" = Some rg ->
  exists r,
    assess_macro_risk df = Ok r /\
    score r = total_score (rules_on df yc d10 hy rg) /\
    warnings r = all_warnings (rules_on df yc d10 hy rg) /\
    latest r = row /\
    (yc = (-0.1)%float -> d10 = 4.6%float -> hy = 5.2%float ->
     rg = 1.2%float ->
     latest_valid df "CC_DELINQ" = None ->
     latest_valid df "CRE_DELINQ_ALL" = None ->
     latest_valid df "AUTO_DELINQ" = None ->
     score r = 10 /\
     warnings r = [w_curve_inverted; w_yield_high; w_hy_spike; w_gap_excess]).
Proof.
  intros Hrow Hyc Hd Hhy Hrg.
  exists (assessment_of df row yc d10 hy rg).
  split; [apply assess_macro_risk_eq; assumption|].
  split; [reflexivity|]. split; [reflexivity|]. split; [reflexivity|].
  intros -> -> -> -> Hcc Hcre Hau.
  unfold assessment_of, rules_on; simpl.
  rewrite Hcc, Hcre, Hau. split; reflexivity.
Qed.

Lemma assess_macro_risk_sums_rules_witness :
  exists r,
    assess_macro_risk Examples.df_four_rules = Ok r /\
    score r = 10 /\
    warnings r = [w_curve_inverted; w_yield_high; w_hy_spike; w_gap_excess].
Proof.
  destruct (assess_macro_risk_sums_rules Examples.df_four_rules
              (omap (fun col : list float => last col)
                    (df_columns Examples.df_four_rules))
              (-0.1)%float 4.6%float 5.2%float 1.2%float)
    as (r & Hr & _ & _ & _ & Hex);
    [reflexivity | reflexivity | reflexivity | reflexivity | reflexivity |].
  exists r. split; [exact Hr|].
  apply Hex; reflexivity.
Defined.

(** C2. The grade of a score: the label is the critical one exactly from 10
    on, the high one exactly from 7 to 9, the medium one exactly from 4 to 6
    and the low one below 4; the colours are darkred, red, orange and green
    in this order; and the level and colour that [assess_macro_risk] returns
    are the grade of the score it returns. *)
Theorem severity_of_score (s : Z) :
  (grade s = ("🔴 CRITICAL RISK", "darkred") <-> 10 <= s) /\
  (grade s = ("🔴 HIGH RISK", "red") <-> 7 <= s < 10) /\
  (grade s = ("🟡 MEDIUM RISK", "orange") <-> 4 <= s < 7) /\
  (grade s = ("🟢 LOW RISK", "green") <-> s < 4) /\
  (forall df,
     match assess_macro_risk df with
     | Ok r => (level r, color r) = grade (score r)
     | Raise _ => True
     end).
Proof.
  assert (Hlast : forall df,
             match assess_macro_risk df with
             | Ok r => (level r, color r) = grade (score r)
             | Raise _ => True
             end).
  { intros df. destruct (assess_macro_risk df) as [r|e] eqn:E; [|exact I].
    apply assess_macro_risk_inv in E
      as (row & yc & d10 & hy & rg & _ & _ & _ & _ & _ & ->).
    unfold assessment_of; cbn [level color score].
    destruct (grade _); reflexivity. }
  unfold grade at 1 2 3 4.
  destruct (Z.geb_spec s 10); [|destruct (Z.geb_spec s 7);
    [|destruct (Z.geb_spec s 4)]];
    repeat match goal with
           | |- _ /\ _ => split
           | |- _ <-> _ => split
           end;
    try exact Hlast; try (intros E; discriminate E);
    try (intros; reflexivity); intros; lia.
Qed.

End RiskTheorems.

Section AbsentValues.

Import Risk RiskSpec.

(** The value of column [c] in the second row is the value in the first row,
    or it is absent. *)
Definition absent_or_same (row row' : Row) (c : string) : Prop :=
  match row !! c, row' !! c with
  | Some v, Some v' => v' = v \/ PyFloat.isna v' = true
  | _, _ => True
  end.

Lemma contribution_absent (ru : threshold_rule) (x : float) :
  PyFloat.isna x = true -> contribution ru x = (0, []).
Proof.
  intros H. unfold contribution, crosses.
  destruct (dir ru); rewrite ?lt_nan_l, ?gt_nan_l by exact H; reflexivity.
Qed.

Lemma add_contribution_zero (a : acc) : add_contribution (0, []) a = a.
Proof. apply acc_eta. Qed.

(** A rule whose points are not negative gives no more, and warns no more,
    on an absent value than on the value it replaces. *)
Lemma contribution_masked (ru : threshold_rule) (v v' : float) :
  0 <= first_points ru -> 0 <= second_points ru ->
  v' = v \/ PyFloat.isna v' = true ->
  fst (contribution ru v') <= fst (contribution ru v) /\
  sublist (snd (contribution ru v')) (snd (contribution ru v)).
Proof.
  intros H1 H2 [->|Hna]; [split; [lia|reflexivity]|].
  rewrite (contribution_absent ru v') by exact Hna. simpl.
  split; [|apply sublist_nil_l].
  unfold contribution.
  destruct (crosses _ _ _); [exact H1|].
  destruct (crosses _ _ _); [exact H2|]. simpl; lia.
Qed.

(** C10. An absent latest value of the yield curve, the 10-year yield, the
    high-yield spread or the rate gap makes every comparison of its rule
    false: the rule adds nothing to the score and emits no warning. Hence a
    frame that differs from another one only by absent values in these four
    columns of the latest row gets a score that is not higher, and warnings
    that are among the warnings of the other. *)
Theorem absent_latest_value_adds_nothing (df df' : DataFrame)
    (r r' : assessment) :
  assess_macro_risk df = Ok r ->
  assess_macro_risk df' = Ok r' ->
  absent_or_same (latest r) (latest r') "YIELD_CURVE" ->
  absent_or_same (latest r) (latest r') "DGS10" ->
  absent_or_same (latest r) (latest r') "HY_SPREAD" ->
  absent_or_same (latest r) (latest r') "RATE_GAP" ->
  df_columns df' !! "CC_DELINQ" = df_columns df !! "CC_DELINQ" ->
  df_columns df' !! "CRE_DELINQ_ALL" = df_columns df !! "CRE_DELINQ_ALL" ->
  df_columns df' !! "AUTO_DELINQ" = df_columns df !! "AUTO_DELINQ" ->
  (forall (x : float) (a : acc), PyFloat.isna x = true ->
     step_yield_curve x a = a /\ step_dgs10 x a = a /\
     step_hy_spread x a = a /\ step_rate_gap x a = a) /\
  (forall (ru : threshold_rule) (x : float),
     PyFloat.isna x = true -> contribution ru x = (0, [])) /\
  score r' <= score r /\
  sublist (warnings r') (warnings r).
Proof.
  intros Hr Hr' Hyc Hd Hhy Hrg Hcc Hcre Hau.
  split.
  { intros x a Hx.
    rewrite step_yield_curve_rule, step_dgs10_rule, step_hy_spread_rule,
      step_rate_gap_rule, !contribution_absent by exact Hx.
    rewrite add_contribution_zero. auto. }
  split; [exact contribution_absent|].
  apply assess_macro_risk_inv in Hr
    as (row & yc & d10 & hy & rg & _ & Eyc & Ed & Ehy & Erg & ->).
  apply assess_macro_risk_inv in Hr'
    as (row' & yc' & d10' & hy' & rg' & _ & Eyc' & Ed' & Ehy' & Erg' & ->).
  unfold absent_or_same, assessment_of in *. cbn [latest score warnings] in *.
  rewrite Eyc, Eyc' in Hyc. rewrite Ed, Ed' in Hd.
  rewrite Ehy, Ehy' in Hhy. rewrite Erg, Erg' in Hrg.
  unfold rules_on, total_score, all_warnings, latest_valid.
  rewrite Hcc, Hcre, Hau.
  cbn [foldr map concat fst snd].
  destruct (contribution_masked rule_curve yc yc') as [S1 W1];
    [simpl; lia | simpl; lia | exact Hyc |].
  destruct (contribution_masked rule_yield d10 d10') as [S2 W2];
    [simpl; lia | simpl; lia | exact Hd |].
  destruct (contribution_masked rule_spread hy hy') as [S3 W3];
    [simpl; lia | simpl; lia | exact Hhy |].
  destruct (contribution_masked rule_gap rg rg') as [S4 W4];
    [simpl; lia | simpl; lia | exact Hrg |].
  change (contribution_opt ?ru (Some ?x)) with (contribution ru x).
  split; [lia|].
  repeat (apply sublist_app; [assumption|]). reflexivity.
Qed.

Lemma absent_latest_value_adds_nothing_witness :
  exists r r',
    assess_macro_risk Examples.df_four_rules = Ok r /\
    assess_macro_risk Examples.df_two_absent = Ok r' /\
    score r = 10 /\ score r' = 4 /\
    score r' <= score r /\ sublist (warnings r') (warnings r).
Proof.
  pose (row := omap (fun col : list float => last col)
                    (df_columns Examples.df_four_rules)).
  pose (row' := omap (fun col : list float => last col)
                     (df_columns Examples.df_two_absent)).
  pose (r := assessment_of Examples.df_four_rules row
               (-0.1)%float 4.6%float 5.2%float 1.2%float).
  pose (r' := assessment_of Examples.df_two_absent row'
                nan 4.6%float nan 1.2%float).
  assert (Hr : assess_macro_risk Examples.df_four_rules = Ok r)
    by (vm_compute; reflexivity).
  assert (Hr' : assess_macro_risk Examples.df_two_absent = Ok r')
    by (vm_compute; reflexivity).
  exists r, r'.
  split; [exact Hr|]. split; [exact Hr'|].
  split; [reflexivity|]. split; [reflexivity|].
  apply (absent_latest_value_adds_nothing
           Examples.df_four_rules Examples.df_two_absent r r' Hr Hr');
    vm_compute; auto.
Defined.

End AbsentValues.

(** ** Scenario determination *)

Section ScenarioFacts.

(** C3. [determine_scenario] answers by the two tests "yield curve < 0"
    (inverted) and "policy spread < 0" (easing): 1 for inverted and not
    easing, 2 for inverted and easing, 3 for neither, 4 for easing alone; the
    answer is always one of the four. The tests are strict, so 0 is neither
    inverted nor easing, and a policy spread that is at least 0 is not
    easing. A curve of -0.2 with a spread of 0.3 gives 1, a curve of 0.4
    with a spread of -0.1 gives 4, and a curve of 0 gives 3 or 4. *)
Theorem determine_scenario_table (yield_curve policy_spread : float) :
  let inverted := PyFloat.lt yield_curve 0 in
  let easing := PyFloat.lt policy_spread 0 in
  (determine_scenario yield_curve policy_spread = 1
     <-> inverted = true /\ easing = false) /\
  (determine_scenario yield_curve policy_spread = 2
     <-> inverted = true /\ easing = true) /\
  (determine_scenario yield_curve policy_spread = 3
     <-> inverted = false /\ easing = false) /\
  (determine_scenario yield_curve policy_spread = 4
     <-> inverted = false /\ easing = true) /\
  (1 <= determine_scenario yield_curve policy_spread <= 4) /\
  (PyFloat.ge policy_spread 0 = true -> easing = false) /\
  (PyFloat.ge yield_curve 0 = true -> inverted = false) /\
  (PyFloat.isna policy_spread = false ->
     (easing = false <-> PyFloat.ge policy_spread 0 = true)) /\
  (PyFloat.isna yield_curve = false ->
     (inverted = false <-> PyFloat.ge yield_curve 0 = true)) /\
  PyFloat.lt 0 0 = false /\
  determine_scenario (-0.2) 0.3 = 1 /\
  determine_scenario 0.4 (-0.1) = 4 /\
  (determine_scenario 0 policy_spread = 3 \/
   determine_scenario 0 policy_spread = 4).
Proof.
  intros inverted easing.
  assert (Hz : PyFloat.lt 0 0 = false) by reflexivity.
  assert (Hps : PyFloat.isna policy_spread = false ->
                (easing = false <-> PyFloat.ge policy_spread 0 = true)).
  { intros Hn. rewrite (ge_zero_not_lt _ Hn). fold easing.
    destruct easing; simpl; split; congruence. }
  assert (Hyc : PyFloat.isna yield_curve = false ->
                (inverted = false <-> PyFloat.ge yield_curve 0 = true)).
  { intros Hn. rewrite (ge_zero_not_lt _ Hn). fold inverted.
    destruct inverted; simpl; split; congruence. }
  assert (Hzero : determine_scenario 0 policy_spread = 3 \/
                  determine_scenario 0 policy_spread = 4).
  { unfold determine_scenario. rewrite Hz. simpl.
    destruct (PyFloat.lt policy_spread 0); simpl; auto. }
  pose proof (ge_zero_lt_excl policy_spread) as Gps.
  pose proof (ge_zero_lt_excl yield_curve) as Gyc.
  fold easing in Gps. fold inverted in Gyc.
  unfold determine_scenario. fold inverted easing.
  destruct inverted, easing; simpl;
    repeat match goal with
           | |- _ /\ _ => split
           | |- _ <-> _ => split
           end;
    try assumption; try reflexivity; try lia;
    try (intros [? ?]; congruence); try (intros; split; reflexivity);
    try (intros [=]).
Qed.

End ScenarioFacts.

(** ** Inversion detection *)

Module InversionSpec.

(** The detection as the specification words it: rows are read in order,
    absent values are skipped; outside an inversion a strictly negative value
    opens one at its date; inside one a value that is at least 0 closes it at
    its date; an inversion still open after the last row is closed at the
    last date of the series. [opened] is the start of the open inversion. *)
Fixpoint scan (opened : option date) (rows : Series) (last_date : date)
    : list (date * date) :=
  match rows with
  | [] =>
      match opened with
      | Some s => [(s, last_date)]
      | None => []
      end
  | (d, v) :: rest =>
      if PyFloat.isna v then scan opened rest last_date
      else
        match opened with
        | None =>
            if PyFloat.lt v 0 then scan (Some d) rest last_date
            else scan None rest last_date
        | Some s =>
            if PyFloat.ge v 0 then (s, d) :: scan None rest last_date
            else scan (Some s) rest last_date
        end
  end.

Definition periods (s : Series) : list (date * date) :=
  scan None s (default 0 (last (s_index s))).

(** Intervals in chronological order after date [lo]: each starts after the
    end of the one before it and does not end before it starts. *)
Fixpoint chronological (lo : date) (ps : list (date * date)) : Prop :=
  match ps with
  | [] => True
  | (a, b) :: rest => lo < a /\ a <= b /\ chronological b rest
  end.

(** A pair of the Python list: the start is never [None] there. *)
Definition py_pair (p : date * date) : option date * date := (Some (fst p), snd p).

End InversionSpec.

Module InversionExample.

(** The values 0.5, -0.1, -0.2, 0.3, -0.05 on five consecutive dates. *)
Definition D1 : date := 19001.
Definition D2 : date := 19002.
Definition D3 : date := 19003.
Definition D4 : date := 19004.
Definition D5 : date := 19005.

Definition five_days : Series :=
  [ (D1, 0.5%float); (D2, (-0.1)%float); (D3, (-0.2)%float);
    (D4, 0.3%float); (D5, (-0.05)%float) ].

End InversionExample.

Section InversionFacts.

Import Inversion InversionSpec.

(** What the function returns from a loop state. *)
Definition finish (st : loop_state) (last_date : date) : list (option date * date) :=
  if in_inv st then inversions st ++ [(start st, last_date)] else inversions st.

Definition opened_of (st : loop_state) : option date :=
  if in_inv st then start st else None.

Lemma loop_refines_scan (rows : Series) (last_date : date) :
  forall (st : loop_state) (done : list (date * date)),
    inversions st = map py_pair done ->
    (in_inv st = true -> is_Some (start st)) ->
    finish (fold_left loop_body rows st) last_date
    = map py_pair (done ++ scan (opened_of st) rows last_date).
Proof.
  induction rows as [|[d v] rest IH]; intros st done Hdone Hopen.
  - simpl. unfold finish, opened_of.
    destruct (in_inv st) eqn:E.
    + destruct (Hopen eq_refl) as [s0 Hs]. rewrite Hs, Hdone.
      rewrite map_app. reflexivity.
    + rewrite app_nil_r. exact Hdone.
  - cbn [fold_left scan]. unfold loop_body at 2.
    destruct (PyFloat.isna v) eqn:Ena; [apply IH; assumption|].
    unfold opened_of at 1. destruct (in_inv st) eqn:E.
    + rewrite andb_false_r, andb_true_r.
      destruct (Hopen eq_refl) as [s0 Hs]. rewrite Hs.
      destruct (PyFloat.ge v 0) eqn:Ege.
      * rewrite (IH _ (done ++ [(s0, d)])).
        -- unfold opened_of; simpl. rewrite <- app_assoc. reflexivity.
        -- simpl. rewrite Hdone, map_app. reflexivity.
        -- simpl. discriminate.
      * rewrite (IH st done Hdone) by (intros _; rewrite Hs; eauto).
        unfold opened_of. rewrite E, Hs. reflexivity.
    + rewrite andb_true_r, andb_false_r.
      destruct (PyFloat.lt v 0) eqn:Elt.
      * rewrite (IH _ done); [reflexivity | exact Hdone | simpl; eauto].
      * rewrite (IH st done Hdone) by (rewrite E; discriminate).
        unfold opened_of. rewrite E. reflexivity.
Qed.

(** The function never raises: an inversion can only be open on a series
    that has a row. *)
Lemma find_inversion_periods_finish (s : Series) :
  find_inversion_periods s
  = Ok (finish (fold_left loop_body s loop_init) (default 0 (last (s_index s)))).
Proof.
  unfold find_inversion_periods, finish, index_last.
  destruct (in_inv (fold_left loop_body s loop_init)) eqn:E; [|reflexivity].
  destruct (last (s_index s)) as [d|] eqn:El; [reflexivity|].
  apply last_None in El. destruct s; [discriminate E|discriminate El].
Qed.

Lemma increasing_cons_lt (a : date) (l : list date) :
  Master.increasing (a :: l) = true ->
  Master.increasing l = true /\ Forall (fun d => a < d) l.
Proof.
  revert a. induction l as [|b l IH]; intros a H; [split; [reflexivity|constructor]|].
  cbn [Master.increasing] in H. apply andb_true_iff in H as [Hab Hl].
  apply Z.ltb_lt in Hab. split; [exact Hl|].
  constructor; [exact Hab|].
  destruct (IH b Hl) as [_ Hall].
  eapply Forall_impl; [exact Hall|]. simpl. intros; lia.
Qed.

Lemma scan_chronological (rows : Series) (last_date : date) :
  forall (opened : option date) (lo : date),
    Master.increasing (s_index rows) = true ->
    Forall (fun d => lo < d <= last_date) (s_index rows) ->
    lo <= last_date ->
    match opened with
    | None => chronological lo (scan None rows last_date)
    | Some s =>
        s <= lo ->
        exists b rest, scan (Some s) rows last_date = (s, b) :: rest /\
                       s <= b /\ chronological b rest
    end.
Proof.
  induction rows as [|[d v] rest IH]; intros opened lo Hinc Hall Hlo.
  - destruct opened as [s|]; simpl; [|exact I].
    intros Hs. exists last_date, []. repeat split; lia.
  - cbn [s_index map fst] in Hinc, Hall.
    apply increasing_cons_lt in Hinc as [Hinc Hgt].
    apply Forall_cons in Hall as [Hd Hall].
    assert (Hall_d : Forall (fun d' => d < d' <= last_date) (s_index rest)).
    { apply Forall_forall. intros x Hx.
      rewrite Forall_forall in Hgt, Hall.
      specialize (Hgt x Hx). specialize (Hall x Hx). simpl in *. lia. }
    assert (Hall_lo : Forall (fun d' => lo < d' <= last_date) (s_index rest))
      by exact Hall.
    cbn [scan]. destruct (PyFloat.isna v).
    { apply (IH opened lo); assumption. }
    destruct opened as [s|].
    + intros Hs. destruct (PyFloat.ge v 0).
      * exists d, (scan None rest last_date). split; [reflexivity|].
        split; [lia|]. apply (IH None d); [assumption|assumption|lia].
      * apply (IH (Some s) lo); assumption.
    + destruct (PyFloat.lt v 0).
      * destruct (IH (Some d) d Hinc Hall_d ltac:(lia) ltac:(lia))
          as (b & r & -> & Hb & Hr).
        simpl. repeat split; [lia|exact Hb|exact Hr].
      * apply (IH None lo); assumption.
Qed.

End InversionFacts.

Section InversionTheorems.

Import Inversion InversionSpec InversionExample.

Lemma increasing_le_last (l : list date) :
  Master.increasing l = true ->
  Forall (fun d => d <= default 0 (last l)) l.
Proof.
  induction l as [|a l IH]; intros H; [constructor|].
  destruct (increasing_cons_lt a l H) as [Hl Hgt].
  destruct l as [|b l']; [constructor; [simpl; lia|constructor]|].
  change (last (a :: b :: l')) with (last (b :: l')).
  specialize (IH Hl).
  constructor; [|exact IH].
  apply Forall_cons in Hgt as [Hab _].
  apply Forall_cons in IH as [Hb _]. lia.
Qed.

Lemma scan_skips_absent (rows : list (date * float)) (last_date : date) :
  forall opened,
    scan opened rows last_date
    = scan opened (filter (fun r => PyFloat.isna (snd r) = false) rows) last_date.
Proof.
  induction rows as [|[d v] rest IH]; intros opened; [reflexivity|].
  rewrite filter_cons. cbn [snd].
  destruct (decide (PyFloat.isna v = false)) as [E|E].
  - cbn [scan]. rewrite E.
    destruct opened; repeat match goal with
                            | |- context [if ?b then _ else _] => destruct b
                            end; rewrite ?IH; reflexivity.
  - cbn [scan]. destruct (PyFloat.isna v); [apply IH|congruence].
Qed.

(** C4. [find_inversion_periods] always returns (it never raises), and what
    it returns is the scan of the specification: rows in order, absent values
    skipped, an interval opened at the first strictly negative value seen
    outside an inversion, closed at the next value that is at least 0, and an
    interval still open at the end closed at the last date of the series. On
    a series with increasing dates the intervals come in chronological order.
    On the values 0.5, -0.1, -0.2, 0.3, -0.05 of five consecutive days the
    result is the two intervals (D2, D4) and (D5, D5). *)
Theorem find_inversion_periods_spec (s : Series) :
  find_inversion_periods s = Ok (map py_pair (periods s)) /\
  periods s
  = scan None (filter (fun r => PyFloat.isna (snd r) = false) s)
         (default 0 (last (s_index s))) /\
  (Master.increasing (s_index s) = true ->
   forall lo, Forall (fun d => lo < d) (s_index s) ->
              chronological lo (periods s)) /\
  find_inversion_periods five_days = Ok [(Some D2, D4); (Some D5, D5)].
Proof.
  split.
  { rewrite find_inversion_periods_finish.
    rewrite (loop_refines_scan s _ loop_init []);
      [reflexivity | reflexivity | discriminate]. }
  split; [apply scan_skips_absent|].
  split; [|reflexivity].
  intros Hinc lo Hlo. unfold periods.
  destruct s as [|r s']; [exact I|].
  apply (scan_chronological (r :: s') _ None lo Hinc).
  - pose proof (increasing_le_last _ Hinc) as Hle.
    rewrite Forall_forall in Hlo, Hle. apply Forall_forall.
    intros x Hx. split; [apply Hlo, Hx | apply Hle, Hx].
  - pose proof (increasing_le_last _ Hinc) as Hle.
    apply Forall_cons in Hle as [Hr _]. apply Forall_cons in Hlo as [Hl _].
    lia.
Qed.

Lemma find_inversion_periods_spec_witness :
  Master.increasing (s_index five_days) = true /\
  chronological 19000 (periods five_days).
Proof.
  split; [reflexivity|].
  apply (proj1 (proj2 (proj2 (find_inversion_periods_spec five_days))));
    [reflexivity|].
  repeat (constructor; [reflexivity|]). constructor.
Defined.

End InversionTheorems.

(** ** Master dataset *)

Section MasterFacts.

Import Master.

Lemma bind_Ok_inv {A B : Type} (m : result A) (f : A -> result B) (b : B) :
  m ≫= f = Ok b -> exists a, m = Ok a /\ f a = Ok b.
Proof. destruct m as [a|e]; simpl; [eauto|discriminate]. Qed.

Lemma get_col_Ok (df : DataFrame) (name : string) (col : list float) :
  get_col df name = Ok col <-> df_columns df !! name = Some col.
Proof.
  unfold get_col. destruct (df_columns df !! name); split; congruence.
Qed.

Lemma reindex_ffill_length (s : Series) (target : list date) (col : list float) :
  reindex_ffill s target = Ok col -> length col = length target.
Proof.
  unfold reindex_ffill. destruct (decide (s_index s = target)) as [E|E].
  - intros [= <-]. rewrite <- E. unfold s_values, s_index.
    rewrite !length_map. reflexivity.
  - destruct (increasing (s_index s)); [|discriminate].
    intros [= <-]. apply length_map.
Qed.

Lemma set_col_wf (df : DataFrame) (name : string) (col : list float) :
  df_wf df -> length col = length (df_index df) -> df_wf (set_col df name col).
Proof.
  intros Hwf Hlen c col' H. unfold set_col in *; simpl in *.
  destruct (decide (name = c)) as [->|Hne].
  - rewrite lookup_insert_eq in H. congruence.
  - rewrite lookup_insert_ne in H by exact Hne. eapply Hwf, H.
Qed.

(** The loop keeps the index and the base column, and every column it adds
    is as long as the index. *)
Lemma add_columns_spec (items : SeriesDict) :
  forall df df',
    add_columns items df = Ok df' ->
    df_index df' = df_index df /\
    (df_wf df -> df_wf df') /\
    df_columns df' !! "DGS10" = df_columns df !! "DGS10".
Proof.
  induction items as [|[name s] rest IH]; intros df df' H.
  - injection H as <-. auto.
  - cbn [add_columns] in H.
    destruct (String.eqb name "DGS10") eqn:En; [apply IH, H|].
    apply bind_Ok_inv in H as (col & Hcol & H).
    apply IH in H as (Hidx & Hwf & H10).
    apply reindex_ffill_length in Hcol.
    split; [exact Hidx|]. split.
    + intros Hdf. apply Hwf, set_col_wf; assumption.
    + rewrite H10. unfold set_col; simpl.
      apply lookup_insert_ne. intros ->. discriminate En.
Qed.

Lemma select_nil {A : Type} (mask : list bool) : select mask (@nil A) = [].
Proof. destruct mask; reflexivity. Qed.

Lemma select_zip_with {A B C : Type} (f : A -> B -> C) (mask : list bool) :
  forall (a : list A) (b : list B),
    select mask (zip_with f a b) = zip_with f (select mask a) (select mask b).
Proof.
  induction mask as [|m mask IH]; intros a b.
  - destruct a, b; reflexivity.
  - destruct a as [|x a]; [simpl; reflexivity|].
    destruct b as [|y b].
    + simpl. destruct m; simpl;
        [reflexivity | destruct (select mask a); reflexivity].
    + simpl. destruct m; simpl; rewrite IH; reflexivity.
Qed.

Lemma select_length {A B : Type} (mask : list bool) :
  forall (a : list A) (b : list B),
    length a = length b -> length (select mask a) = length (select mask b).
Proof.
  induction mask as [|m mask IH]; intros a b H.
  - destruct a, b; reflexivity.
  - destruct a as [|x a], b as [|y b]; try discriminate H; [reflexivity|].
    injection H as H. simpl. destruct m; simpl; rewrite (IH a b H); reflexivity.
Qed.

(** Selecting by the presence mask of a column keeps its present values. *)
Lemma select_own_mask (col : list float) :
  select (map (fun v => negb (PyFloat.isna v)) col) col = dropna col.
Proof.
  induction col as [|v col IH]; [reflexivity|].
  unfold dropna in *. rewrite filter_cons. simpl.
  destruct (PyFloat.isna v); simpl.
  - destruct (decide (true = false)); [discriminate|exact IH].
  - destruct (decide (false = false)); [|congruence]. rewrite IH. reflexivity.
Qed.

Lemma dropna_present (col : list float) :
  Forall (fun v => PyFloat.isna v = false) (dropna col).
Proof.
  unfold dropna. apply Forall_forall. intros v Hv.
  apply list_elem_of_filter in Hv. tauto.
Qed.

End MasterFacts.

Section MasterColumns.

Import Master.

(** The presence mask of the base column. *)
Definition base_mask (base : Series) : list bool :=
  map (fun v => negb (PyFloat.isna v)) (s_values base).

(** The columns of the frame that [build_master_df] returns, in terms of the
    columns before the rows without a 10-year yield are dropped. *)
Lemma build_master_df_columns (sd : SeriesDict) (df : DataFrame) :
  build_master_df sd = Ok df ->
  exists (base t10y2y : Series) (pre : DataFrame)
         (dgs2 direct fedfunds effr : list float),
    dict_get sd "DGS10" = Ok base /\
    dict_get sd "T10Y2Y" = Ok t10y2y /\
    add_columns sd (mkDataFrame (s_index base) {[ "DGS10" := s_values base ]})
      = Ok pre /\
    reindex_ffill t10y2y (s_index base) = Ok direct /\
    df_columns pre !! "DGS2" = Some dgs2 /\
    df_columns pre !! "FEDFUNDS" = Some fedfunds /\
    df_columns pre !! "EFFR" = Some effr /\
    length dgs2 = length (s_values base) /\
    length direct = length (s_values base) /\
    df_index df = select (base_mask base) (s_index base) /\
    df_columns df
    = select (base_mask base) <$>
        (<["POLICY_SPREAD" := col_sub dgs2 effr]>
         (<["RATE_GAP" := col_sub (s_values base) fedfunds]>
          (<["YIELD_CURVE" :=
               fillna direct (col_sub (s_values base) dgs2)]>
           (<["YIELD_CURVE_CALC" := col_sub (s_values base) dgs2]>
            (<["YIELD_CURVE_DIRECT" := direct]> (df_columns pre)))))).
Proof.
  intros H. unfold build_master_df in H.
  apply bind_Ok_inv in H as (base & Hbase & H).
  apply bind_Ok_inv in H as (pre & Hpre & H).
  apply bind_Ok_inv in H as (t & Ht & H).
  apply bind_Ok_inv in H as (direct & Hdirect & H).
  destruct (add_columns_spec _ _ _ Hpre) as (Hidx & Hwf & H10).
  simpl in Hidx, H10. rewrite lookup_singleton_eq in H10.
  assert (Hpre_wf : df_wf pre).
  { apply Hwf. intros c col Hc. simpl in *.
    apply lookup_singleton_Some in Hc as [_ <-].
    unfold s_values, s_index. rewrite !length_map. reflexivity. }
  rewrite Hidx in Hdirect.
  apply bind_Ok_inv in H as (c10 & Hc10 & H).
  apply get_col_Ok in Hc10. unfold set_col in Hc10; simpl in Hc10.
  rewrite lookup_insert_ne in Hc10 by discriminate.
  rewrite H10 in Hc10. injection Hc10 as <-.
  apply bind_Ok_inv in H as (dgs2 & Hdgs2 & H).
  apply get_col_Ok in Hdgs2. unfold set_col in Hdgs2; simpl in Hdgs2.
  rewrite lookup_insert_ne in Hdgs2 by discriminate.
  apply bind_Ok_inv in H as (ycd & Hycd & H).
  apply get_col_Ok in Hycd. unfold set_col in Hycd; simpl in Hycd.
  rewrite lookup_insert_ne, lookup_insert_eq in Hycd by discriminate.
  injection Hycd as <-.
  apply bind_Ok_inv in H as (ycc & Hycc & H).
  apply get_col_Ok in Hycc. unfold set_col in Hycc; simpl in Hycc.
  rewrite lookup_insert_eq in Hycc. injection Hycc as <-.
  apply bind_Ok_inv in H as (c10' & Hc10' & H).
  apply get_col_Ok in Hc10'. unfold set_col in Hc10'; simpl in Hc10'.
  rewrite !lookup_insert_ne in Hc10' by discriminate.
  rewrite H10 in Hc10'. injection Hc10' as <-.
  apply bind_Ok_inv in H as (ff & Hff & H).
  apply get_col_Ok in Hff. unfold set_col in Hff; simpl in Hff.
  rewrite !lookup_insert_ne in Hff by discriminate.
  apply bind_Ok_inv in H as (dgs2' & Hdgs2' & H).
  apply get_col_Ok in Hdgs2'. unfold set_col in Hdgs2'; simpl in Hdgs2'.
  rewrite !lookup_insert_ne in Hdgs2' by discriminate.
  rewrite Hdgs2 in Hdgs2'. injection Hdgs2' as <-.
  apply bind_Ok_inv in H as (effr & Heffr & H).
  apply get_col_Ok in Heffr. unfold set_col in Heffr; simpl in Heffr.
  rewrite !lookup_insert_ne in Heffr by discriminate.
  unfold dropna_subset in H.
  apply bind_Ok_inv in H as (key & Hkey & H).
  apply get_col_Ok in Hkey. unfold set_col in Hkey; simpl in Hkey.
  rewrite !lookup_insert_ne in Hkey by discriminate.
  rewrite H10 in Hkey. injection Hkey as <-.
  injection H as <-. unfold set_col; simpl.
  exists base, t, pre, dgs2, direct, ff, effr.
  rewrite Hidx.
  repeat split; try assumption; try reflexivity.
  - rewrite (Hpre_wf _ _ Hdgs2), Hidx. unfold s_values, s_index.
    rewrite !length_map. reflexivity.
  - rewrite (reindex_ffill_length _ _ _ Hdirect). unfold s_values, s_index.
    rewrite !length_map. reflexivity.
Qed.

End MasterColumns.

Section MasterRows.

Import Master.

Lemma cell_select_zip_with (f : float -> float -> float) (mask : list bool)
    (a b : list float) (i : nat) (x y : float) :
  select mask a !! i = Some x -> select mask b !! i = Some y ->
  select mask (zip_with f a b) !! i = Some (f x y).
Proof.
  intros Ha Hb. rewrite select_zip_with, lookup_zip_with, Ha. simpl.
  rewrite Hb. reflexivity.
Qed.

(** The rows of the returned frame, column by column. *)
Lemma build_master_df_rows (sd : SeriesDict) (df : DataFrame) :
  build_master_df sd = Ok df ->
  exists base : Series,
    dict_get sd "DGS10" = Ok base /\
    df_index df = select (base_mask base) (s_index base) /\
    df_columns df !! "DGS10" = Some (dropna (s_values base)) /\
    forall i : nat,
      (i < length (df_index df))%nat ->
      exists d10 d2 direct : float,
        cell df "DGS10" i = Some d10 /\
        cell df "DGS2" i = Some d2 /\
        cell df "YIELD_CURVE_DIRECT" i = Some direct /\
        cell df "YIELD_CURVE_CALC" i = Some (PyFloat.sub d10 d2) /\
        cell df "YIELD_CURVE" i
        = Some (if PyFloat.isna direct then PyFloat.sub d10 d2 else direct) /\
        PyFloat.isna d10 = false.
Proof.
  intros H.
  destruct (build_master_df_columns sd df H)
    as (base & t & pre & dgs2 & direct & ff & effr & Hbase & Ht & Hpre &
        Hdirect & Hdgs2 & Hff & Heffr & Ldgs2 & Ldirect & Hidx & Hcols).
  destruct (add_columns_spec _ _ _ Hpre) as (_ & _ & H10).
  simpl in H10. rewrite lookup_singleton_eq in H10.
  exists base. split; [exact Hbase|]. split; [exact Hidx|].
  assert (E10 : df_columns df !! "DGS10" = Some (dropna (s_values base))).
  { rewrite Hcols, lookup_fmap, !lookup_insert_ne, H10 by discriminate.
    simpl. unfold base_mask. rewrite select_own_mask. reflexivity. }
  split; [exact E10|].
  intros i Hi. rewrite Hidx in Hi.
  assert (Lidx : length (s_index base) = length (s_values base))
    by (unfold s_index, s_values; rewrite !length_map; reflexivity).
  set (mask := base_mask base) in *.
  destruct (lookup_lt_is_Some_2 (select mask (s_values base)) i) as [d10 Hd10].
  { rewrite (select_length mask (s_values base) (s_index base)) by congruence.
    exact Hi. }
  destruct (lookup_lt_is_Some_2 (select mask dgs2) i) as [d2 Hd2].
  { rewrite (select_length mask dgs2 (s_index base)) by congruence. exact Hi. }
  destruct (lookup_lt_is_Some_2 (select mask direct) i) as [dr Hdr].
  { rewrite (select_length mask direct (s_index base)) by congruence. exact Hi. }
  exists d10, d2, dr. unfold cell. rewrite Hcols, !lookup_fmap.
  split.
  { rewrite !lookup_insert_ne, H10 by discriminate. exact Hd10. }
  split.
  { rewrite !lookup_insert_ne, Hdgs2 by discriminate. exact Hd2. }
  split.
  { rewrite !lookup_insert_ne, lookup_insert_eq by discriminate. exact Hdr. }
  split.
  { rewrite !lookup_insert_ne, lookup_insert_eq by discriminate. simpl.
    apply cell_select_zip_with; assumption. }
  split.
  { rewrite !lookup_insert_ne, lookup_insert_eq by discriminate. simpl.
    unfold fillna.
    rewrite (cell_select_zip_with _ mask direct _ i dr (PyFloat.sub d10 d2) Hdr);
      [reflexivity|].
    apply cell_select_zip_with; assumption. }
  pose proof (dropna_present (s_values base)) as Hp.
  unfold mask, base_mask in Hd10. rewrite select_own_mask in Hd10.
  rewrite Forall_forall in Hp. apply Hp.
  apply list_elem_of_lookup. eauto.
Qed.

End MasterRows.

Section MasterFrame.

Import Master.

(** Two frames with one index that agree on every column but [k]. *)
Definition agree_off (k : string) (df1 df2 : DataFrame) : Prop :=
  df_index df1 = df_index df2 /\
  forall c : string, c <> k -> df_columns df1 !! c = df_columns df2 !! c.

Lemma set_col_agree (k name : string) (col : list float) (df1 df2 : DataFrame) :
  agree_off k df1 df2 -> agree_off k (set_col df1 name col) (set_col df2 name col).
Proof.
  intros [Hi Hc]. split; [exact Hi|]. intros c Hne. unfold set_col; simpl.
  destruct (decide (name = c)) as [->|Hn].
  - rewrite !lookup_insert_eq. reflexivity.
  - rewrite !lookup_insert_ne by exact Hn. apply Hc, Hne.
Qed.

Lemma set_col_agree_at (k : string) (col1 col2 : list float) (df1 df2 : DataFrame) :
  agree_off k df1 df2 -> agree_off k (set_col df1 k col1) (set_col df2 k col2).
Proof.
  intros [Hi Hc]. split; [exact Hi|]. intros c Hne. unfold set_col; simpl.
  rewrite !lookup_insert_ne by congruence. apply Hc, Hne.
Qed.

Lemma add_columns_agree (k : string) (items : SeriesDict) :
  forall df1 df2 p1 p2,
    agree_off k df1 df2 ->
    add_columns items df1 = Ok p1 -> add_columns items df2 = Ok p2 ->
    agree_off k p1 p2.
Proof.
  induction items as [|[name s] rest IH]; intros df1 df2 p1 p2 Ha H1 H2.
  - injection H1 as <-. injection H2 as <-. exact Ha.
  - cbn [add_columns] in H1, H2.
    destruct (String.eqb name "DGS10"); [eapply IH; eassumption|].
    apply bind_Ok_inv in H1 as (c1 & Hc1 & H1).
    apply bind_Ok_inv in H2 as (c2 & Hc2 & H2).
    destruct Ha as [Hi Hc]. rewrite Hi in Hc1.
    assert (c1 = c2) as -> by congruence.
    eapply IH; [|exact H1|exact H2].
    apply set_col_agree. split; assumption.
Qed.

Lemma add_columns_dict_set (k : string) (t' : Series) (items : SeriesDict) :
  forall df1 df2 p1 p2,
    agree_off k df1 df2 ->
    add_columns items df1 = Ok p1 ->
    add_columns (dict_set items k t') df2 = Ok p2 ->
    agree_off k p1 p2.
Proof.
  induction items as [|[name s] rest IH]; intros df1 df2 p1 p2 Ha H1 H2.
  - injection H1 as <-. injection H2 as <-. exact Ha.
  - cbn [dict_set] in H2. destruct (String.eqb name k) eqn:Ek.
    + apply String.eqb_eq in Ek as ->.
      cbn [add_columns] in H1, H2.
      destruct (String.eqb k "DGS10");
        [eapply add_columns_agree; eassumption|].
      apply bind_Ok_inv in H1 as (c1 & Hc1 & H1).
      apply bind_Ok_inv in H2 as (c2 & Hc2 & H2).
      eapply add_columns_agree; [|exact H1|exact H2].
      apply set_col_agree_at, Ha.
    + cbn [add_columns] in H1, H2.
      destruct (String.eqb name "DGS10"); [eapply IH; eassumption|].
      apply bind_Ok_inv in H1 as (c1 & Hc1 & H1).
      apply bind_Ok_inv in H2 as (c2 & Hc2 & H2).
      destruct Ha as [Hi Hc]. rewrite Hi in Hc1.
      assert (c1 = c2) as -> by congruence.
      eapply IH; [|exact H1|exact H2].
      apply set_col_agree. split; assumption.
Qed.

Lemma dict_get_dict_set_ne (sd : SeriesDict) (k key : string) (t' : Series) :
  key <> k -> dict_get (dict_set sd k t') key = dict_get sd key.
Proof.
  intros Hne. induction sd as [|[name s] rest IH]; [reflexivity|].
  cbn [dict_set dict_get]. destruct (String.eqb name k) eqn:Ek.
  - apply String.eqb_eq in Ek as ->. cbn [dict_get].
    destruct (String.eqb k key) eqn:E; [|reflexivity].
    apply String.eqb_eq in E. congruence.
  - cbn [dict_get]. destruct (String.eqb name key); [reflexivity|exact IH].
Qed.

(** Replacing the direct-spread series changes no column of the result
    other than the three that are read from it. *)
Lemma build_master_df_frame (sd : SeriesDict) (t' : Series) (df df' : DataFrame) :
  build_master_df sd = Ok df ->
  build_master_df (dict_set sd "T10Y2Y" t') = Ok df' ->
  df_index df' = df_index df /\
  forall c : string,
    c <> "T10Y2Y" -> c <> "YIELD_CURVE_DIRECT" -> c <> "YIELD_CURVE" ->
    df_columns df' !! c = df_columns df !! c.
Proof.
  intros H H'.
  destruct (build_master_df_columns _ _ H)
    as (base & t & pre & dgs2 & direct & ff & effr & Hbase & _ & Hpre &
        _ & Hdgs2 & Hff & Heffr & _ & _ & Hidx & Hcols).
  destruct (build_master_df_columns _ _ H')
    as (base' & t2 & pre' & dgs2' & direct' & ff' & effr' & Hbase' & _ & Hpre' &
        _ & Hdgs2' & Hff' & Heffr' & _ & _ & Hidx' & Hcols').
  rewrite dict_get_dict_set_ne in Hbase' by discriminate.
  assert (base' = base) as -> by congruence.
  assert (Ha : agree_off "T10Y2Y" pre pre').
  { eapply add_columns_dict_set; [|exact Hpre|exact Hpre'].
    split; [reflexivity|]. intros; reflexivity. }
  destruct Ha as [_ Hc].
  rewrite Hc in Hdgs2, Hff, Heffr by discriminate.
  assert (dgs2' = dgs2) as -> by congruence.
  assert (ff' = ff) as -> by congruence.
  assert (effr' = effr) as -> by congruence.
  split; [congruence|].
  intros c N1 N2 N3. rewrite Hcols, Hcols', !lookup_fmap. f_equal.
  destruct (decide (c = "POLICY_SPREAD")) as [->|M1];
    [rewrite !lookup_insert_eq; reflexivity|].
  rewrite !(lookup_insert_ne _ "POLICY_SPREAD") by congruence.
  destruct (decide (c = "RATE_GAP")) as [->|M2];
    [rewrite !lookup_insert_eq; reflexivity|].
  rewrite !(lookup_insert_ne _ "RATE_GAP") by congruence.
  rewrite !(lookup_insert_ne _ "YIELD_CURVE") by congruence.
  destruct (decide (c = "YIELD_CURVE_CALC")) as [->|M3];
    [rewrite !lookup_insert_eq; reflexivity|].
  rewrite !(lookup_insert_ne _ "YIELD_CURVE_CALC") by congruence.
  rewrite !(lookup_insert_ne _ "YIELD_CURVE_DIRECT") by congruence.
  symmetry. apply Hc, N1.
Qed.

End MasterFrame.

Module MasterExample.

(** Four days; the 10-year yield is absent on day 2 and the reported
    10y-2y spread is absent on day 3, where both yields are present. *)
Definition one_gap : Master.SeriesDict :=
  [ ("DGS10", [(1, 4.0%float); (2, nan); (3, 4.2%float); (4, 4.3%float)]);
    ("DGS2", [(1, 3.5%float); (2, 3.6%float); (3, 3.7%float); (4, 3.8%float)]);
    ("T10Y2Y", [(1, 0.5%float); (2, 0.4%float); (3, nan); (4, 0.5%float)]);
    ("FEDFUNDS", [(1, 5.0%float)]);
    ("EFFR", [(1, 5.1%float)]) ].

End MasterExample.

Section MasterTheorems.

Import Master.



End MasterTheorems.

(** ** Section parsing *)

Module TextSpec.

Import Text.

(** [sub] occurs in [text] at index [i]. *)
Definition occursb (sub text : str) (i : nat) : bool :=
  (i <=? length text)%nat && startswith sub (drop i text).

Definition occurs_at (sub text : str) (i : nat) : Prop :=
  occursb sub text i = true.

(** [i] is the index of the first occurrence of [sub] in [text]. *)
Definition first_occurrence (sub text : str) (i : nat) : Prop :=
  occurs_at sub text i /\ forall j : nat, (j < i)%nat -> ~ occurs_at sub text j.

(** [e] is where the section that starts at [start] stops when the strings
    of [stops] end it: the nearest index from [start] on where one of them
    occurs, the end of the text when none does. *)
Definition stops_at (stops : list str) (text : str) (start e : nat) : Prop :=
  (start <= e <= length text)%nat /\
  (e = length text \/ exists m : str, m ∈ stops /\ occurs_at m text e) /\
  forall (j : nat) (m : str),
    (start <= j < e)%nat -> m ∈ stops -> ~ occurs_at m text j.

(** The stops for a marker: the fixed markers other than the marker itself. *)
Definition stops_for (section_name : str) : list str :=
  filter (fun m => m <> section_name) next_sections.

(** What is done to the text between the marker and the stop. *)
Definition clean (section : str) : str :=
  strip (replace fence [] (strip section)).

End TextSpec.

Section TextFacts.

Import Text TextSpec.

Lemma startswith_app (sub s : str) :
  startswith sub s = true <-> exists post, s = sub ++ post.
Proof.
  revert s. induction sub as [|a sub IH]; intros s.
  - simpl. split; [intros _; exists s; reflexivity | reflexivity].
  - destruct s as [|b s]; simpl.
    + split; [discriminate | intros [post H]; discriminate H].
    + rewrite andb_true_iff, N.eqb_eq, IH. split.
      * intros [-> [post ->]]. exists post. reflexivity.
      * intros [post H]. injection H as -> ->. split; [reflexivity|eauto].
Qed.

(** An occurrence splits the text around the string. *)
Lemma occurs_at_split (sub text : str) (i : nat) :
  occurs_at sub text i <->
  exists pre post, text = pre ++ sub ++ post /\ length pre = i.
Proof.
  unfold occurs_at, occursb. rewrite andb_true_iff, Nat.leb_le, startswith_app.
  split.
  - intros [Hi [post Hp]]. exists (take i text), post.
    rewrite <- Hp, take_drop. split; [reflexivity|].
    rewrite length_take. lia.
  - intros (pre & post & -> & <-). split.
    + rewrite length_app. lia.
    + exists post. rewrite drop_app_length. reflexivity.
Qed.

(** The search from a position: no occurrence up to the end, or the offset
    of the first one. *)
Lemma find_at_cases (sub : str) (rest : str) :
  forall pos : Z,
    (find_at sub rest pos = -1 /\
     forall j : nat, (j <= length rest)%nat -> startswith sub (drop j rest) = false)
    \/
    (exists k : nat,
       find_at sub rest pos = pos + Z.of_nat k /\
       (k <= length rest)%nat /\
       startswith sub (drop k rest) = true /\
       forall j : nat, (j < k)%nat -> startswith sub (drop j rest) = false).
Proof.
  induction rest as [|c rest IH]; intros pos.
  - cbn [find_at]. destruct (startswith sub []) eqn:E.
    + right. exists 0%nat. rewrite Z.add_0_r. repeat split; auto. lia.
    + left. split; [reflexivity|]. intros j Hj. simpl in Hj.
      replace j with 0%nat by lia. exact E.
  - cbn [find_at]. destruct (startswith sub (c :: rest)) eqn:E.
    + right. exists 0%nat. rewrite Z.add_0_r. repeat split; auto.
      * simpl; lia.
      * intros j Hj. lia.
    + destruct (IH (pos + 1)) as [[Hn Hall]|(k & Hk & Hle & Hs & Hmin)].
      * left. split; [exact Hn|]. intros [|j] Hj; [exact E|].
        simpl in Hj. simpl. apply Hall. lia.
      * right. exists (S k). split; [rewrite Hk; lia|].
        split; [simpl; lia|]. split; [exact Hs|].
        intros [|j] Hj; [exact E|]. simpl. apply Hmin. lia.
Qed.

Lemma find_cases (text sub : str) (s : nat) :
  (s <= length text)%nat ->
  (find text sub (Z.of_nat s) = -1 /\
   forall j : nat, (s <= j)%nat -> ~ occurs_at sub text j)
  \/
  (exists p : nat,
     find text sub (Z.of_nat s) = Z.of_nat p /\
     (s <= p)%nat /\ occurs_at sub text p /\
     forall j : nat, (s <= j < p)%nat -> ~ occurs_at sub text j).
Proof.
  intros Hs. unfold find.
  replace ((0 <=? Z.of_nat s) && (Z.of_nat s <=? Z.of_nat (length text)))
    with true by (symmetry; apply andb_true_iff; split;
                  [apply Z.leb_le|apply Z.leb_le]; lia).
  rewrite Nat2Z.id.
  assert (Hdrop : forall j, drop j (drop s text) = drop (s + j) text)
    by (intros; apply drop_drop).
  assert (Hlen : length (drop s text) = (length text - s)%nat)
    by apply length_drop.
  destruct (find_at_cases sub (drop s text) (Z.of_nat s))
    as [[Hn Hall]|(k & Hk & Hle & Hst & Hmin)].
  - left. split; [exact Hn|]. intros j Hj. unfold occurs_at, occursb.
    rewrite andb_true_iff, Nat.leb_le. intros [Hjl Hsw].
    specialize (Hall (j - s)%nat). rewrite Hdrop in Hall.
    replace (s + (j - s))%nat with j in Hall by lia.
    rewrite Hall in Hsw by lia. discriminate.
  - right. exists (s + k)%nat. split; [rewrite Hk; lia|].
    split; [lia|]. split.
    + unfold occurs_at, occursb. rewrite andb_true_iff, Nat.leb_le.
      rewrite <- Hdrop. split; [lia|exact Hst].
    + intros j Hj. unfold occurs_at, occursb.
      rewrite andb_true_iff, Nat.leb_le. intros [Hjl Hsw].
      specialize (Hmin (j - s)%nat). rewrite Hdrop in Hmin.
      replace (s + (j - s))%nat with j in Hmin by lia.
      rewrite Hmin in Hsw by lia. discriminate.
Qed.

End TextFacts.

Section TextScan.

Import Text TextSpec.

Variables (text section_name : str) (s e : nat).
Hypothesis s_in_text : (s <= length text)%nat.

Lemma end_step_cases (end_ : nat) (m : str) :
  (end_ <= length text)%nat ->
  exists end' : nat,
    end_step text section_name (Z.of_nat s) (Z.of_nat end_) m = Z.of_nat end' /\
    (end' <= end_)%nat /\
    (end' = end_ \/
     (m <> section_name /\ (s <= end')%nat /\ occurs_at m text end')) /\
    (m <> section_name ->
     forall j, (s <= j < end')%nat -> ~ occurs_at m text j).
Proof.
  intros Hend. unfold end_step.
  destruct (decide (m = section_name)) as [->|Hne].
  { exists end_. split; [reflexivity|]. split; [lia|].
    split; [left; reflexivity|congruence]. }
  destruct (find_cases text m s s_in_text)
    as [[Hn Hall]|(p & Hp & Hsp & Hocc & Hmin)].
  - rewrite Hn. simpl. exists end_. split; [reflexivity|]. split; [lia|].
    split; [left; reflexivity|]. intros _ j Hj. apply Hall. lia.
  - rewrite Hp.
    replace (Z.of_nat p =? -1) with false by (symmetry; apply Z.eqb_neq; lia).
    simpl. destruct (Z.ltb_spec (Z.of_nat p) (Z.of_nat end_)).
    + exists p. split; [reflexivity|]. split; [lia|].
      split; [right; auto|]. intros _. exact Hmin.
    + exists end_. split; [reflexivity|]. split; [lia|].
      split; [left; reflexivity|]. intros _ j Hj. apply Hmin. lia.
Qed.

Lemma fold_end_step (ms : list str) :
  forall (end_ : nat) (seen : list str),
    (e <= end_ <= length text)%nat ->
    (forall m j, m ∈ seen -> m <> section_name -> (s <= j < end_)%nat ->
                 ~ occurs_at m text j) ->
    (forall m j, m ∈ ms -> m <> section_name -> (s <= j < e)%nat ->
                 ~ occurs_at m text j) ->
    exists end' : nat,
      fold_left (end_step text section_name (Z.of_nat s)) ms (Z.of_nat end_)
      = Z.of_nat end' /\
      (e <= end' <= length text)%nat /\
      forall m j, m ∈ seen ++ ms -> m <> section_name -> (s <= j < end')%nat ->
                  ~ occurs_at m text j.
Proof.
  induction ms as [|m ms IH]; intros end_ seen Hend Hseen Hms.
  - exists end_. split; [reflexivity|]. split; [exact Hend|].
    intros m j Hm. rewrite app_nil_r in Hm. apply Hseen, Hm.
  - cbn [fold_left].
    destruct (end_step_cases end_ m) as (e1 & -> & Hle & Hcase & Hm); [lia|].
    destruct (IH e1 (seen ++ [m])) as (end' & Hf & Hb & Hall).
    + split; [|lia].
      destruct Hcase as [->|(Hne & Hs1 & Hocc)]; [lia|].
      destruct (Nat.le_gt_cases e e1) as [|Hlt]; [assumption|].
      exfalso. apply (Hms m e1); [left|exact Hne|lia|exact Hocc].
    + intros m' j Hin Hne Hj. apply elem_of_app in Hin as [Hin|Hin].
      * apply Hseen; [exact Hin|exact Hne|lia].
      * apply list_elem_of_singleton in Hin as ->.
        apply (Hm Hne). exact Hj.
    + intros m' j Hin. apply Hms. right. exact Hin.
    + exists end'. split; [exact Hf|]. split; [exact Hb|].
      intros m' j Hin. apply Hall. rewrite <- app_assoc. exact Hin.
Qed.

(** The loop over [next_sections] ends at the stop of the specification. *)
Lemma scan_end_is_stop :
  stops_at (stops_for section_name) text s e ->
  fold_left (end_step text section_name (Z.of_nat s)) next_sections
            (Z.of_nat (length text))
  = Z.of_nat e.
Proof.
  intros ((Hse & Hel) & Hstop & Hfree).
  assert (Hin : forall m, m ∈ stops_for section_name
                          <-> m <> section_name /\ m ∈ next_sections)
    by (intros m; exact (list_elem_of_filter
                           (fun m => m <> section_name) next_sections m)).
  destruct (fold_end_step next_sections (length text) [])
    as (end' & Hf & [Hb1 Hb2] & Hall).
  - lia.
  - intros m j Hm. apply elem_of_nil in Hm. destruct Hm.
  - intros m j Hm Hne Hj. apply Hfree; [exact Hj|]. apply Hin. auto.
  - rewrite Hf. f_equal.
    destruct Hstop as [->|(m & Hm & Hocc)]; [lia|].
    apply Hin in Hm as [Hne Hm].
    destruct (Nat.le_gt_cases end' e) as [|Hlt]; [lia|].
    exfalso. apply (Hall m e); [exact Hm|exact Hne|lia|exact Hocc].
Qed.

End TextScan.

Module TextExample.

Import Text.

Definition three_sections : str :=
  lit "MARKET_STATUS: A. KEY_RISKS: B. STRATEGY: C.".

(** A response that repeats the marker that is asked for. *)
Definition repeated_marker : str := lit "KEY_RISKS: a KEY_RISKS: b".

End TextExample.

Section TextDecide.

Import Text TextSpec.

(** [stops_at] on given numbers, by computation. *)
Definition stops_atb (stops : list str) (text : str) (start e : nat) : bool :=
  (start <=? e)%nat && (e <=? length text)%nat &&
  ((e =? length text)%nat || existsb (fun m => occursb m text e) stops) &&
  forallb (fun j => forallb (fun m => negb (occursb m text j)) stops)
          (seq start (e - start)).

Lemma stops_atb_sound (stops : list str) (text : str) (start e : nat) :
  stops_atb stops text start e = true -> stops_at stops text start e.
Proof.
  unfold stops_atb. rewrite !andb_true_iff, orb_true_iff, !Nat.leb_le, Nat.eqb_eq.
  intros [[[H1 H2] H3] H4]. split; [lia|]. split.
  - destruct H3 as [->|H3]; [left; reflexivity|]. right.
    apply existsb_exists in H3 as (m & Hm & Ho). exists m.
    split; [apply list_elem_of_In, Hm|exact Ho].
  - intros j m Hj Hm Ho. rewrite forallb_forall in H4.
    specialize (H4 j). rewrite forallb_forall in H4.
    assert (Hjs : In j (seq start (e - start))) by (apply in_seq; lia).
    specialize (H4 Hjs m (proj1 (list_elem_of_In _ _) Hm)).
    unfold occurs_at in Ho. rewrite Ho in H4. discriminate.
Qed.

End TextDecide.

Section TextTheorems.

Import Text TextSpec TextExample.

Lemma first_occurrence_unique (sub text : str) (i p : nat) :
  first_occurrence sub text i ->
  occurs_at sub text p -> (forall j, (0 <= j < p)%nat -> ~ occurs_at sub text j) ->
  p = i.
Proof.
  intros [Hi Hmin] Hp Hpmin.
  destruct (Nat.lt_trichotomy p i) as [Hlt|[->|Hgt]]; [|reflexivity|].
  - exfalso. apply (Hmin p Hlt Hp).
  - exfalso. apply (Hpmin i); [lia|exact Hi].
Qed.

(** C6, as the code has it. [extract_section] returns no value when the
    text is [None] (the failure that the handler catches) and exactly when
    the marker does not occur in the text. When the marker first occurs at
    index [i], it returns the text from just after the marker up to the
    nearest occurrence, from there on, of one of the fixed markers other than
    the marker that was asked for (or of the code fence; the end of the text
    when there is none), stripped, with the code fences removed, and stripped
    again. Extracting "MARKET_STATUS:" from
    "MARKET_STATUS: A. KEY_RISKS: B. STRATEGY: C." gives "A.". *)
Theorem extract_section_spec (text section_name : str) :
  extract_section PyNone section_name = None /\
  (extract_section (PyStr text) section_name = None
     <-> forall j : nat, ~ occurs_at section_name text j) /\
  (forall i e : nat,
     first_occurrence section_name text i ->
     stops_at (stops_for section_name) text (i + length section_name) e ->
     extract_section (PyStr text) section_name
     = Some (clean (slice text (Z.of_nat (i + length section_name))
                          (Z.of_nat e)))) /\
  extract_section (PyStr three_sections) (lit "MARKET_STATUS:")
  = Some (lit "A.").
Proof.
  split; [reflexivity|].
  split; [|split; [|vm_compute; reflexivity]].
  - unfold extract_section, contains.
    destruct (find_cases text section_name 0 ltac:(lia))
      as [[Hn Hall]|(p & Hp & _ & Hocc & _)]; change (Z.of_nat 0) with 0 in *.
    + rewrite Hn. simpl. split; [|reflexivity].
      intros _ j. apply Hall. lia.
    + rewrite Hp.
      replace (Z.of_nat p =? -1) with false by (symmetry; apply Z.eqb_neq; lia).
      simpl. split; [discriminate|]. intros Hno. destruct (Hno p Hocc).
  - intros i e Hfirst Hstop.
    unfold extract_section, contains.
    destruct (find_cases text section_name 0 ltac:(lia))
      as [[Hn Hall]|(p & Hp & _ & Hocc & Hmin)]; change (Z.of_nat 0) with 0 in *.
    { exfalso. apply (Hall i); [lia|apply Hfirst]. }
    rewrite Hp.
    replace (Z.of_nat p =? -1) with false by (symmetry; apply Z.eqb_neq; lia).
    assert (p = i) as -> by (eapply first_occurrence_unique; eassumption).
    cbn [negb]. rewrite <- Nat2Z.inj_add.
    rewrite (scan_end_is_stop text section_name (i + length section_name) e).
    + reflexivity.
    + apply occurs_at_split in Hocc as (pre & post & -> & <-).
      rewrite !length_app. lia.
    + exact Hstop.
Qed.

Lemma extract_section_spec_witness :
  first_occurrence (lit "MARKET_STATUS:") three_sections 0 /\
  stops_at (stops_for (lit "MARKET_STATUS:")) three_sections 14 18 /\
  extract_section (PyStr three_sections) (lit "MARKET_STATUS:")
  = Some (clean (slice three_sections 14 18)) /\
  clean (slice three_sections 14 18) = lit "A.".
Proof.
  assert (H1 : first_occurrence (lit "MARKET_STATUS:") three_sections 0).
  { split; [vm_compute; reflexivity|]. intros j Hj. lia. }
  assert (H2 : stops_at (stops_for (lit "MARKET_STATUS:")) three_sections 14 18).
  { apply stops_atb_sound. vm_compute. reflexivity. }
  split; [exact H1|]. split; [exact H2|].
  split; [|vm_compute; reflexivity].
  exact (proj1 (proj2 (proj2
           (extract_section_spec three_sections (lit "MARKET_STATUS:"))))
           0%nat 18%nat H1 H2).
Defined.

(** The claim as it is stated, with every fixed marker as a stop, fails on a
    text that repeats the marker asked for: the second "KEY_RISKS:" is the
    nearest following occurrence of a fixed marker, and the function reads
    past it. *)
Lemma extract_section_reads_past_own_marker :
  first_occurrence (lit "KEY_RISKS:") repeated_marker 0 /\
  stops_at next_sections repeated_marker 10 13 /\
  clean (slice repeated_marker 10 13) = lit "a" /\
  extract_section (PyStr repeated_marker) (lit "KEY_RISKS:")
  = Some (lit "a KEY_RISKS: b") /\
  extract_section (PyStr repeated_marker) (lit "KEY_RISKS:")
  <> Some (clean (slice repeated_marker 10 13)).
Proof.
  split.
  { split; [vm_compute; reflexivity|]. intros j Hj. lia. }
  split; [apply stops_atb_sound; vm_compute; reflexivity|].
  split; [vm_compute; reflexivity|].
  split; [vm_compute; reflexivity|].
  vm_compute. discriminate.
Qed.

End TextTheorems.

(** ** Fetching one series *)

Section SortFill.

Import App.

(** Rows in date order. *)
Definition by_date (a b : date * float) : Prop := fst a <= fst b.

Lemma insert_row_HdRel (r r' : date * float) (s : Series) :
  HdRel by_date r' s -> by_date r' r -> HdRel by_date r' (insert_row r s).
Proof.
  intros Hs Hr. destruct s as [|x s]; simpl; [constructor; exact Hr|].
  destruct (fst r <? fst x); constructor; [exact Hr|].
  inversion Hs; assumption.
Qed.

Lemma insert_row_sorted (r : date * float) (s : Series) :
  Sorted by_date s -> Sorted by_date (insert_row r s).
Proof.
  induction s as [|r' s IH]; intros Hs; simpl.
  - repeat constructor.
  - apply Sorted_inv in Hs as [Hs Hhd].
    destruct (Z.ltb_spec (fst r) (fst r')).
    + constructor; [constructor; assumption|]. constructor. unfold by_date. lia.
    + constructor; [apply IH, Hs|].
      apply insert_row_HdRel; [exact Hhd|exact H].
Qed.

Lemma insert_row_perm (r : date * float) (s : Series) :
  Permutation (insert_row r s) (r :: s).
Proof.
  induction s as [|r' s IH]; simpl; [reflexivity|].
  destruct (fst r <? fst r'); [reflexivity|].
  rewrite IH. apply perm_swap.
Qed.

Lemma sort_index_sorted (s : Series) : Sorted by_date (sort_index s).
Proof.
  unfold sort_index. induction (rev s) as [|r l IH]; simpl;
    [constructor|apply insert_row_sorted, IH].
Qed.

Lemma sort_index_perm (s : Series) : Permutation (sort_index s) s.
Proof.
  unfold sort_index. transitivity (rev s);
    [|symmetry; apply Permutation_rev].
  induction (rev s) as [|r l IH]; simpl; [reflexivity|].
  rewrite insert_row_perm, IH. reflexivity.
Qed.

Lemma ffill_from_index (prev : float) (s : Series) :
  s_index (ffill_from prev s) = s_index s.
Proof.
  revert prev. induction s as [|[d v] s IH]; intros prev; [reflexivity|].
  simpl. f_equal. apply IH.
Qed.

Lemma last_cons_default (v prev : float) (l : list float) :
  default prev (last (v :: l)) = default v (last l).
Proof. rewrite last_cons. destruct (last l); reflexivity. Qed.

(** After the fill, the value at a position is the last value present up to
    that position, and is absent when there is none. *)
Lemma ffill_from_value (s : Series) :
  forall (prev : float) (i : nat),
    (i < length s)%nat ->
    s_values (ffill_from prev s) !! i
    = Some (default prev (last (dropna (take (S i) (s_values s))))).
Proof.
  induction s as [|[d v] s IH]; intros prev i Hi; [simpl in Hi; lia|].
  cbn [ffill_from s_values map snd]. unfold dropna.
  cbn [take]. rewrite filter_cons.
  destruct i as [|i].
  - simpl. rewrite take_0.
    destruct (PyFloat.isna v); destruct (decide _); try congruence; reflexivity.
  - cbn [lookup list_lookup]. simpl in Hi.
    fold (s_values (ffill_from (if PyFloat.isna v then prev else v) s)).
    rewrite (IH _ i) by lia. f_equal. unfold dropna, s_values.
    destruct (PyFloat.isna v); destruct (decide _); try congruence.
    symmetry. apply last_cons_default.
Qed.

Lemma sorted_index (s : Series) : Sorted by_date s -> Sorted Z.le (s_index s).
Proof.
  induction 1 as [|r s Hs IH Hhd]; simpl; constructor; [exact IH|].
  destruct Hhd; simpl; constructor. assumption.
Qed.

End SortFill.

Section FetchTheorems.

Import App.

Variable fred_get_series : Z -> string -> date -> result Series.

(** The warning that names the series. *)
Definition fetch_warning (series_id name : string) (e : exn) : ui_event :=
  UiWarning ("⚠️ " +:+ name_or name series_id +:+ " 수집 실패: " +:+ exn_str e).

Lemma fetch_body_cases (series_id : string) (start_date : date)
    (name : string) (w : world) :
  exists (s : Series) (w' : world),
    fetch_series_with_ffill_body fred_get_series (series_id, start_date, name) w
    = (Returned s, w') /\
    provider_calls w' = provider_calls w ++ [(series_id, start_date)] /\
    match fred_get_series (clock w) series_id start_date with
    | Raise e =>
        s = [] /\ ui w' = ui w ++ [fetch_warning series_id name e]
    | Ok data => s = ffill (sort_index data) /\ ui w' = ui w
    end.
Proof.
  unfold fetch_series_with_ffill_body, try_except, get_series, mbind, M_bind.
  cbv beta.
  destruct (fred_get_series (clock w) series_id start_date) as [data|e];
    cbn [lift mret M_ret raise].
  - destruct data as [|r data]; cbn; eexists _, _;
      (split; [reflexivity|]); (split; [reflexivity|]); split; reflexivity.
  - cbn. eexists _, _.
    (split; [reflexivity|]); (split; [reflexivity|]); split; reflexivity.
Qed.


End FetchTheorems.

(** ** The login gate *)

Module LoginExample.

Import App.

Definition table : gmap string string := {[ "alice" := "s3cret" ]}.

Definition fresh : world :=
  mkWorld None (SecretsLoaded (Some table)) [] [] 0 ∅ ∅.

Definition good : form_input := mkForm "alice" "s3cret" true.
Definition bad : form_input := mkForm "alice" "guess" true.

End LoginExample.

Section LoginTheorems.

Import App.

Definition authenticated (w : world) : bool := default false (password_correct w).

(** The title and the form that prompt for credentials. *)
Definition login_prompt : list ui_event :=
  [UiTitle "🔒 퀀트 대시보드 로그인"; UiForm "credentials"].

(** The script runs [check_password] once per run, with the inputs of that
    run; the outcomes are collected. *)
Fixpoint run_checks (inputs : list form_input) (w : world)
    : list (outcome bool) * world :=
  match inputs with
  | [] => ([], w)
  | inp :: rest =>
      let '(o, w') := check_password inp w in
      let '(os, w'') := run_checks rest w' in
      (o :: os, w'')
  end.

Ltac run_check :=
  cbv -[lookup String.eqb app username password submit_btn run_checks map
        msg_wrong_password msg_no_such_user].

Ltac destruct_lookup :=
  match goal with
  | |- context [match ?x with Some _ => _ | None => _ end] =>
      destruct x as [expected|]
  end.

Lemma check_password_authenticated (inp : form_input) (w : world) :
  authenticated w = true -> check_password inp w = (Returned true, w).
Proof.
  unfold authenticated. intros H.
  unfold check_password, mbind, M_bind, get_world. cbv beta. rewrite H.
  reflexivity.
Qed.

Lemma run_checks_authenticated (inputs : list form_input) (w : world) :
  authenticated w = true ->
  run_checks inputs w = (map (fun _ => Returned true) inputs, w).
Proof.
  intros H. induction inputs as [|inp rest IH]; [reflexivity|].
  cbn [run_checks map]. rewrite (check_password_authenticated inp w H), IH.
  reflexivity.
Qed.

(** C8. [check_password] as a machine on the session flag. When the flag is
    set, the check returns true and renders nothing, whatever the inputs, and
    so does every later check of the session. When the flag is not set and
    the form is submitted: a username that the credential table does not
    have gives the no-such-user error, a username with another password
    gives the incorrect-password error, and in both cases the check returns
    false with the flag as it was; a matching pair sets the flag and asks for
    a rerun, after which every check returns true without prompting. The
    credential store is the same after every check. *)
Theorem check_password_machine (inp : form_input) (w : world) :
  (authenticated w = true ->
   check_password inp w = (Returned true, w) /\
   forall inputs : list form_input,
     run_checks inputs w = (map (fun _ => Returned true) inputs, w)) /\
  (authenticated w = false -> submit_btn inp = true ->
   forall table : option (gmap string string),
     secrets w = SecretsLoaded table ->
     match table ≫= (fun t => t !! username inp) with
     | None =>
         exists w',
           check_password inp w = (Returned false, w') /\
           ui w' = ui w ++ login_prompt ++ [UiError msg_no_such_user] /\
           password_correct w' = password_correct w
     | Some expected =>
         if String.eqb (password inp) expected then
           exists w',
             check_password inp w = (Rerun, w') /\
             password_correct w' = Some true /\
             ui w' = ui w ++ login_prompt /\
             forall inputs : list form_input,
               run_checks inputs w'
               = (map (fun _ => Returned true) inputs, w')
         else
           exists w',
             check_password inp w = (Returned false, w') /\
             ui w' = ui w ++ login_prompt ++ [UiError msg_wrong_password] /\
             password_correct w' = password_correct w
     end) /\
  (authenticated w = false -> submit_btn inp = false ->
   exists w',
     check_password inp w = (Returned false, w') /\
     ui w' = ui w ++ login_prompt /\
     password_correct w' = password_correct w) /\
  secrets (snd (check_password inp w)) = secrets w /\
  (authenticated w = true -> authenticated (snd (check_password inp w)) = true).
Proof.
  split.
  { intros H. split; [apply check_password_authenticated, H|].
    intros inputs. apply run_checks_authenticated, H. }
  split.
  { unfold authenticated. intros Hna Hsub table Hsec.
    destruct w as [pc sec u calls clk fc lc]. cbn in Hna, Hsec. subst sec.
    destruct pc as [[|]|]; try discriminate Hna; run_check; rewrite Hsub;
      run_check;
      (destruct table as [t|]; run_check;
       [destruct_lookup; run_check;
        [destruct (String.eqb (password inp) expected); run_check|]|]);
      eexists; (split; [reflexivity|]); run_check;
      rewrite <- ?app_assoc; (split; [reflexivity|]);
      try reflexivity;
      (split; [reflexivity|]);
      intros inputs; apply run_checks_authenticated; reflexivity. }
  split.
  { unfold authenticated. intros Hna Hsub.
    destruct w as [pc sec u calls clk fc lc]. cbn in Hna.
    destruct pc as [[|]|]; try discriminate Hna; run_check; rewrite Hsub;
      run_check; eexists; (split; [reflexivity|]); run_check;
      rewrite <- ?app_assoc; split; reflexivity. }
  split.
  { destruct w as [pc sec u calls clk fc lc].
    destruct pc as [[|]|]; run_check; try reflexivity;
      (destruct (submit_btn inp); [|reflexivity]); run_check;
      (destruct sec as [e|table]; [reflexivity|]); run_check;
      (destruct table as [t|]; run_check; [|reflexivity]);
      (destruct_lookup; run_check; [|reflexivity]);
      destruct (String.eqb (password inp) expected); reflexivity. }
  intros H. rewrite (check_password_authenticated inp w H). exact H.
Qed.

Lemma check_password_machine_witness :
  authenticated LoginExample.fresh = false /\
  submit_btn LoginExample.good = true /\
  (exists w',
     check_password LoginExample.good LoginExample.fresh = (Rerun, w') /\
     password_correct w' = Some true /\
     run_checks [LoginExample.bad; LoginExample.good] w'
     = ([Returned true; Returned true], w')) /\
  (exists w',
     check_password LoginExample.bad LoginExample.fresh = (Returned false, w') /\
     password_correct w' = None /\
     secrets w' = secrets LoginExample.fresh).
Proof.
  split; [reflexivity|]. split; [reflexivity|]. split.
  - pose proof (proj1 (proj2 (check_password_machine
                                LoginExample.good LoginExample.fresh))
                  eq_refl eq_refl (Some LoginExample.table) eq_refl) as H.
    vm_compute in H. destruct H as (w' & Hc & Hp & _ & Hr).
    exists w'. split; [vm_compute; exact Hc|]. split; [exact Hp|].
    exact (Hr [LoginExample.bad; LoginExample.good]).
  - eexists. split; [vm_compute; reflexivity|]. split; reflexivity.
Defined.

End LoginTheorems.

(** ** The cached batch fetch *)

Section CacheTheorems.

Import App.

Variable fred_get_series : Z -> string -> date -> result Series.

(** What a fetch leaves as it is: the clock and the cache of the batch. *)
Definition same_batch_state (w w' : world) : Prop :=
  clock w' = clock w /\ load_cache w' = load_cache w.

Lemma fetch_body_frame (args : string * date * string) (w : world) :
  exists (s : Series) (w' : world),
    fetch_series_with_ffill_body fred_get_series args w = (Returned s, w') /\
    same_batch_state w w'.
Proof.
  destruct args as [[series_id start_date] name].
  unfold fetch_series_with_ffill_body, try_except, get_series, mbind, M_bind.
  cbv beta.
  destruct (fred_get_series (clock w) series_id start_date) as [data|e];
    cbn [lift mret M_ret raise].
  - destruct data as [|r data]; cbn; eexists _, _;
      (split; [reflexivity|]); split; reflexivity.
  - cbn. eexists _, _. (split; [reflexivity|]); split; reflexivity.
Qed.

Lemma fetch_frame (series_id : string) (start_date : date) (name : string)
    (w : world) :
  exists (s : Series) (w' : world),
    fetch_series_with_ffill fred_get_series series_id start_date name w
    = (Returned s, w') /\
    same_batch_state w w'.
Proof.
  unfold fetch_series_with_ffill, cache_data.
  destruct (fetch_body_frame (series_id, start_date, name) w)
    as (s & w' & Hb & Hc & Hl).
  destruct (fetch_cache w !! (series_id, start_date, name)) as [[v t]|];
    [destruct (clock w <? t + 3600);
     [exists v, w; split; [reflexivity|split; reflexivity]|]|];
    rewrite Hb; eexists _, _; (split; [reflexivity|]);
    split; cbn; assumption.
Qed.

Lemma for_each_frame {A B : Type} (f : A -> M B) (l : list A) :
  (forall a w, exists b w', f a w = (Returned b, w') /\ same_batch_state w w') ->
  forall w, exists bs w',
    for_each f l w = (Returned bs, w') /\ same_batch_state w w'.
Proof.
  intros Hf. induction l as [|a l IH]; intros w.
  - exists [], w. split; [reflexivity|split; reflexivity].
  - destruct (Hf a w) as (b & w1 & Ha & Hc1 & Hl1).
    destruct (IH w1) as (bs & w2 & Hr & Hc2 & Hl2).
    exists (b :: bs), w2. split.
    + cbn [for_each]. unfold mbind, M_bind. rewrite Ha, Hr. reflexivity.
    + split; congruence.
Qed.

Lemma load_body_frame (start_date : date) (w : world) :
  exists (sd : Master.SeriesDict) (w' : world),
    load_all_series_body fred_get_series start_date w = (Returned sd, w') /\
    same_batch_state w w'.
Proof.
  unfold load_all_series_body.
  set (f := fun entry : string * string * string => _).
  set (w0 := snd (render (UiSpinner "📡 FRED API에서 데이터 수집 중...") w)).
  destruct (for_each_frame f SERIES) with (w := w0) as (sd & w' & Hr & Hc & Hl).
  { intros [[key series_id] name] w1. unfold f.
    destruct (fetch_frame series_id start_date name w1) as (s & w2 & Hs & Hf).
    exists (key, s), w2. split; [|exact Hf].
    unfold mbind, M_bind. rewrite Hs. reflexivity. }
  exists sd, w'. split.
  - unfold mbind, M_bind. cbn [render modify]. exact Hr.
  - split; [rewrite Hc|rewrite Hl]; reflexivity.
Qed.

End CacheTheorems.

Section CacheMain.

Import App.

Variable fred_get_series : Z -> string -> date -> result Series.

(** The batch cache has no entry for the start date that is still valid. *)
Definition batch_miss (start_date : date) (w : world) : Prop :=
  match load_cache w !! start_date with
  | Some (_, stored_at) => (clock w <? stored_at + 3600) = false
  | None => True
  end.

Lemma load_all_series_hit (start_date : date) (w : world)
    (sd : Master.SeriesDict) (stored_at : Z) :
  load_cache w !! start_date = Some (sd, stored_at) ->
  clock w < stored_at + 3600 ->
  load_all_series fred_get_series start_date w = (Returned sd, w).
Proof.
  intros Hl Ht. unfold load_all_series, cache_data. rewrite Hl.
  apply Z.ltb_lt in Ht. rewrite Ht. reflexivity.
Qed.

Lemma load_all_series_populates (start_date : date) (w : world) :
  exists (sd : Master.SeriesDict) (w1 : world) (stored_at : Z),
    load_all_series fred_get_series start_date w = (Returned sd, w1) /\
    load_cache w1 !! start_date = Some (sd, stored_at) /\
    clock w1 = clock w /\
    clock w < stored_at + 3600 /\
    (batch_miss start_date w -> stored_at = clock w).
Proof.
  destruct (load_body_frame fred_get_series start_date w)
    as (sd & w' & Hb & Hc & Hl).
  assert (Hmiss :
    exists w1,
      (let run :=
         match load_all_series_body fred_get_series start_date w with
         | (Returned v, w'0) =>
             (Returned v,
              write_load_cache
                (<[start_date := (v, clock w'0)]> (load_cache w'0)) w'0)
         | other => other
         end in run) = (Returned sd, w1) /\
      load_cache w1 !! start_date = Some (sd, clock w) /\
      clock w1 = clock w).
  { rewrite Hb. eexists. split; [reflexivity|].
    unfold write_load_cache. cbn [load_cache clock]. unfold cache in *.
    rewrite lookup_insert_eq, Hc. split; reflexivity. }
  destruct Hmiss as (w1 & Hrun & Hlook & Hclk).
  unfold load_all_series, cache_data, batch_miss.
  destruct (load_cache w !! start_date) as [[v t]|] eqn:E.
  - destruct (Z.ltb_spec (clock w) (t + 3600)).
    + exists v, w, t. repeat split; try assumption. discriminate.
    + exists sd, w1, (clock w). split; [exact Hrun|].
      split; [exact Hlook|]. split; [exact Hclk|]. split; [lia|]. reflexivity.
  - exists sd, w1, (clock w). split; [exact Hrun|].
    split; [exact Hlook|]. split; [exact Hclk|]. split; [lia|]. reflexivity.
Qed.

(** C9. [load_all_series] always returns, and after a call the batch cache
    holds what it returned under the start date. A second call with the same
    start date before the entry is 3600 seconds old returns the same series
    and changes nothing: the provider is not called (its log is as it was),
    whatever it would answer by then. When the first call found no valid
    entry, the entry is stored at the time of that call, so every call less
    than 3600 seconds later is served from it. *)
Theorem load_all_series_cached (start_date : date) (w : world) (t1 t2 : Z) :
  exists (sd : Master.SeriesDict) (w1 : world) (stored_at : Z),
    load_all_series fred_get_series start_date (at_time t1 w)
    = (Returned sd, w1) /\
    load_cache w1 !! start_date = Some (sd, stored_at) /\
    t1 < stored_at + 3600 /\
    (batch_miss start_date (at_time t1 w) -> stored_at = t1) /\
    (t2 < stored_at + 3600 ->
     load_all_series fred_get_series start_date (at_time t2 w1)
     = (Returned sd, at_time t2 w1) /\
     provider_calls (at_time t2 w1) = provider_calls w1 /\
     ui (at_time t2 w1) = ui w1).
Proof.
  destruct (load_all_series_populates start_date (at_time t1 w))
    as (sd & w1 & stored & Hrun & Hlook & Hclk & Hwin & Hmiss).
  exists sd, w1, stored. cbn [at_time clock] in *.
  split; [exact Hrun|]. split; [exact Hlook|]. split; [exact Hwin|].
  split; [exact Hmiss|]. intros Ht2.
  split; [|split; reflexivity].
  apply (load_all_series_hit start_date (at_time t2 w1) sd stored);
    [exact Hlook|exact Ht2].
Qed.

End CacheMain.

(** * Further properties of the code *)

(** ** Risk scoring: errors and bounds *)

Section RiskEdges.

Import Risk RiskSpec.

(** X1. [assess_macro_risk] raises [IndexError] on a frame without rows, and
    on a frame with rows it raises the [KeyError] of the first of the columns
    YIELD_CURVE, DGS10, HY_SPREAD, RATE_GAP that the latest row lacks; the
    delinquency columns may be missing. *)
Theorem assess_macro_risk_errors (df : DataFrame) (row : Row) :
  (df_index df = [] -> assess_macro_risk df = Raise IndexError) /\
  (iloc_last df = Ok row ->
   (row !! "YIELD_CURVE" = None ->
    assess_macro_risk df = Raise (KeyError "YIELD_CURVE")) /\
   (is_Some (row !! "YIELD_CURVE") -> row !! "DGS10" = None ->
    assess_macro_risk df = Raise (KeyError "DGS10")) /\
   (is_Some (row !! "YIELD_CURVE") -> is_Some (row !! "DGS10") ->
    row !! "HY_SPREAD" = None ->
    assess_macro_risk df = Raise (KeyError "HY_SPREAD")) /\
   (is_Some (row !! "YIELD_CURVE") -> is_Some (row !! "DGS10") ->
    is_Some (row !! "HY_SPREAD") -> row !! "RATE_GAP" = None ->
    assess_macro_risk df = Raise (KeyError "RATE_GAP")) /\
   (is_Some (row !! "YIELD_CURVE") -> is_Some (row !! "DGS10") ->
    is_Some (row !! "HY_SPREAD") -> is_Some (row !! "RATE_GAP") ->
    exists r, assess_macro_risk df = Ok r)).
Proof.
  split.
  { intros H. unfold assess_macro_risk, iloc_last. rewrite H. reflexivity. }
  intros Hrow. unfold assess_macro_risk at 1 2 3 4. rewrite Hrow.
  unfold getitem. cbn [mbind result_bind].
  split; [intros ->; reflexivity|].
  split; [intros [yc ->] ->; reflexivity|].
  split; [intros [yc ->] [d ->] ->; reflexivity|].
  split; [intros [yc ->] [d ->] [hy ->] ->; reflexivity|].
  intros [yc Hyc] [d Hd] [hy Hhy] [rg Hrg].
  eexists. apply (assess_macro_risk_eq df row yc d hy rg); assumption.
Qed.

Lemma contribution_bounds (ru : threshold_rule) (x : float) (top : Z) :
  1 <= first_points ru <= 3 -> 1 <= second_points ru <= 3 ->
  first_points ru <= top -> second_points ru <= top ->
  0 <= fst (contribution ru x) <= top /\
  Z.of_nat (length (snd (contribution ru x))) <= fst (contribution ru x) /\
  fst (contribution ru x) <= 3 * Z.of_nat (length (snd (contribution ru x))) /\
  (length (snd (contribution ru x)) <= 1)%nat.
Proof.
  intros H1 H2 H3 H4. unfold contribution.
  destruct (crosses _ _ _); [simpl; lia|].
  destruct (crosses _ _ _); simpl; lia.
Qed.

Lemma contribution_opt_bounds (ru : threshold_rule) (x : option float) (top : Z) :
  1 <= first_points ru <= 3 -> 1 <= second_points ru <= 3 ->
  first_points ru <= top -> second_points ru <= top ->
  0 <= fst (contribution_opt ru x) <= top /\
  Z.of_nat (length (snd (contribution_opt ru x))) <= fst (contribution_opt ru x) /\
  fst (contribution_opt ru x)
  <= 3 * Z.of_nat (length (snd (contribution_opt ru x))) /\
  (length (snd (contribution_opt ru x)) <= 1)%nat.
Proof.
  intros H1 H2 H3 H4. destruct x as [v|]; [apply contribution_bounds; assumption|].
  simpl. lia.
Qed.

(** X2. Whatever the frame, a score that [assess_macro_risk] returns lies
    between 0 and 18, there are at most seven warnings, and every warning
    stands for one to three points: the score is at least the number of
    warnings and at most three times that number. So a critical level (10
    points or more) comes with at least four warnings, and a score of 0 with
    none. *)
Theorem assess_macro_risk_bounds (df : DataFrame) (r : assessment) :
  assess_macro_risk df = Ok r ->
  0 <= score r <= 18 /\
  (length (warnings r) <= 7)%nat /\
  Z.of_nat (length (warnings r)) <= score r <= 3 * Z.of_nat (length (warnings r)) /\
  (10 <= score r -> (4 <= length (warnings r))%nat) /\
  (score r = 0 <-> warnings r = []).
Proof.
  intros H.
  apply assess_macro_risk_inv in H
    as (row & yc & d10 & hy & rg & _ & _ & _ & _ & _ & ->).
  unfold assessment_of, rules_on, total_score, all_warnings.
  cbn [score warnings foldr map concat fst snd].
  destruct (contribution_opt_bounds rule_curve (Some yc) 3)
    as (A1 & B1 & C1 & D1); [simpl; lia..|].
  destruct (contribution_opt_bounds rule_yield (Some d10) 2)
    as (A2 & B2 & C2 & D2); [simpl; lia..|].
  destruct (contribution_opt_bounds rule_spread (Some hy) 3)
    as (A3 & B3 & C3 & D3); [simpl; lia..|].
  destruct (contribution_opt_bounds rule_gap (Some rg) 2)
    as (A4 & B4 & C4 & D4); [simpl; lia..|].
  destruct (contribution_opt_bounds rule_card (latest_valid df "CC_DELINQ") 3)
    as (A5 & B5 & C5 & D5); [simpl; lia..|].
  destruct (contribution_opt_bounds rule_cre (latest_valid df "CRE_DELINQ_ALL") 3)
    as (A6 & B6 & C6 & D6); [simpl; lia..|].
  destruct (contribution_opt_bounds rule_auto (latest_valid df "AUTO_DELINQ") 2)
    as (A7 & B7 & C7 & D7); [simpl; lia..|].
  set (c1 := contribution_opt rule_curve _) in *.
  set (c2 := contribution_opt rule_yield _) in *.
  set (c3 := contribution_opt rule_spread _) in *.
  set (c4 := contribution_opt rule_gap _) in *.
  set (c5 := contribution_opt rule_card _) in *.
  set (c6 := contribution_opt rule_cre _) in *.
  set (c7 := contribution_opt rule_auto _) in *.
  rewrite !length_app. cbn [length].
  split; [lia|]. split; [lia|]. split; [lia|]. split; [lia|].
  split.
  - intros Hz.
    assert (length c1.2 = 0 /\ length c2.2 = 0 /\ length c3.2 = 0 /\
            length c4.2 = 0 /\ length c5.2 = 0 /\ length c6.2 = 0 /\
            length c7.2 = 0)%nat as (E1 & E2 & E3 & E4 & E5 & E6 & E7) by lia.
    apply nil_length_inv in E1, E2, E3, E4, E5, E6, E7.
    rewrite E1, E2, E3, E4, E5, E6, E7. reflexivity.
  - intros Hn. apply (f_equal length) in Hn.
    rewrite !length_app in Hn. cbn [length] in Hn. lia.
Qed.

Lemma assess_macro_risk_bounds_witness :
  exists r,
    assess_macro_risk Examples.df_two_absent = Ok r /\
    0 <= score r <= 18 /\ (length (warnings r) <= 7)%nat.
Proof.
  destruct (assess_macro_risk Examples.df_two_absent) as [r|e] eqn:E;
    [|vm_compute in E; discriminate E].
  exists r. split; [reflexivity|].
  destruct (assess_macro_risk_bounds Examples.df_two_absent r E)
    as (H1 & H2 & _).
  split; assumption.
Defined.

End RiskEdges.

(** ** The scenario table *)

Module Scenarios.

(** One entry of [SCENARIOS]; [assets] keeps the items of the inner dict in
    their order. *)
Record scenario : Type := mkScenario {
  title : string;
  meaning : string;
  risk : string;
  color : string;
  assets : list (string * string)
}.

Definition scenario_1 : scenario :=
  mkScenario "🟡 시나리오 1: 스태그플레이션 우려"
    "수익률 곡선 역전 + 긴축 기대 → 인플레이션 지속 + 성장 둔화 조합"
    "⚠️ 고위험" "#f57f17"
    [ ("주식 (성장주)", "⚠️ 축소 (20-30%)");
      ("주식 (가치주)", "✅ 유지 (30-40%)");
      ("기술주", "🔴 대폭 축소 (10-15%)");
      ("비트코인·고위험 자산", "🔴 최소화 (0-5%)");
      ("부동산/리츠", "⚠️ 선별적 (10-15%)");
      ("채권", "⚠️ 단기채 중심 (20-30%)");
      ("원자재/금", "✅ 확대 (15-20%)");
      ("현금", "✅ 비중 확대 (10-20%)") ].

Definition scenario_2 : scenario :=
  mkScenario "🚨 시나리오 2: 침체 경고 (리세션 베이스)"
    "수익률 곡선 역전 + 완화 기대 → 경기 침체 임박 신호"
    "⚠️⚠️ 최고위험" "#c62828"
    [ ("주식 (성장주)", "🚫 강한 축소/청산 (0-10%)");
      ("주식 (가치주)", "⚠️ 최소화 (10-20%)");
      ("기술주/고베타", "🚫 청산 권고");
      ("비트코인·고위험 자산", "🚫 비중 최소/0%");
      ("부동산/리츠", "🔴 축소 (0-5%)");
      ("채권", "✅ 장기 국채 비중 확대 (40-50%)");
      ("금·방어적 실물자산", "✅ 핵심 (20-30%)");
      ("현금", "✅ 20-30% 수준 확보") ].

Definition scenario_3 : scenario :=
  mkScenario "✅ 시나리오 3: 건강한 성장"
    "정상 수익률 곡선 + 긴축 기대 → 건강한 성장 / 인플레이션 관리"
    "✅ 저위험" "#2e7d32"
    [ ("주식 (성장주)", "✅ 공격적 (40-50%)");
      ("주식 (가치주)", "✅ 균형 (20-30%)");
      ("기술주", "✅ 비중 확대 (25-35%)");
      ("비트코인·위험자산", "⚠️ 선택적 (5-10%)");
      ("부동산/리츠", "✅ 우호적 환경 (10-20%)");
      ("채권", "⚠️ 최소화 (5-10%)");
      ("금·원자재", "➡️ 중립 (5-10%)");
      ("현금", "➡️ 최소 (5-10%)") ].

Definition scenario_4 : scenario :=
  mkScenario "🔄 시나리오 4: 정책 전환점 (Pivot 기대)"
    "정상 곡선 + 완화 기대 → 긴축 사이클 종료/피벗 기대"
    "➡️ 중간위험" "#1565c0"
    [ ("주식 (성장주)", "⚠️ 조정 (25-35%)");
      ("주식 (가치주)", "✅ 확대 (25-35%)");
      ("기술주", "⚠️ 선별적 (20-25%)");
      ("비트코인·위험자산", "✅ 점진적 확대 (10-15%)");
      ("부동산/리츠", "✅ 매수 기회 (15-20%)");
      ("채권", "✅ 장기채 비중 확대 (20-30%)");
      ("금·원자재", "➡️ 중립 (5-10%)");
      ("현금", "➡️ 10-15% 유지") ].

(** [SCENARIOS] *)
Definition SCENARIOS : gmap Z scenario :=
  {[ 1 := scenario_1; 2 := scenario_2; 3 := scenario_3; 4 := scenario_4 ]}.

(** [SCENARIOS[key]] *)
Definition scenarios_getitem (key : Z) : option scenario := SCENARIOS !! key.

End Scenarios.

Section ScenarioEdges.

Import Scenarios.

(** X3. An absent value is neither inverted nor easing: with an absent
    yield curve the scenario is 3 or 4 (never one of the two inverted-curve
    scenarios), with an absent policy spread it is 1 or 3, and with both
    absent it is 3, the healthy-growth scenario. *)
Theorem determine_scenario_absent (yield_curve policy_spread : float) :
  (PyFloat.isna yield_curve = true ->
   determine_scenario yield_curve policy_spread
   = (if PyFloat.lt policy_spread 0 then 4 else 3)) /\
  (PyFloat.isna policy_spread = true ->
   determine_scenario yield_curve policy_spread
   = (if PyFloat.lt yield_curve 0 then 1 else 3)) /\
  (PyFloat.isna yield_curve = true -> PyFloat.isna policy_spread = true ->
   determine_scenario yield_curve policy_spread = 3).
Proof.
  unfold determine_scenario.
  split; [|split].
  - intros H. rewrite (lt_nan_l _ 0 H). simpl.
    destruct (PyFloat.lt policy_spread 0); reflexivity.
  - intros H. rewrite (lt_nan_l policy_spread 0 H).
    destruct (PyFloat.lt yield_curve 0); reflexivity.
  - intros H1 H2. rewrite (lt_nan_l _ 0 H1), (lt_nan_l _ 0 H2). reflexivity.
Qed.

Lemma determine_scenario_absent_witness :
  determine_scenario nan nan = 3 /\
  determine_scenario nan (-0.1) = 4 /\
  determine_scenario (-0.2) nan = 1.
Proof.
  destruct (determine_scenario_absent nan nan) as (_ & _ & H3).
  destruct (determine_scenario_absent nan (-0.1)) as (H1 & _ & _).
  destruct (determine_scenario_absent (-0.2) nan) as (_ & H2 & _).
  split; [apply H3; reflexivity|].
  split; [apply H1; reflexivity|apply H2; reflexivity].
Defined.

(** X4. The identifier that [determine_scenario] returns is always a key
    of [SCENARIOS]: the lookup cannot fail. Each of the four scenarios lists
    eight asset classes under distinct names, and the inverted-curve
    scenarios are the two whose risk label is a high-risk one. *)
Theorem scenario_lookup_total (yield_curve policy_spread : float) :
  exists sc : scenario,
    scenarios_getitem (determine_scenario yield_curve policy_spread) = Some sc /\
    length (assets sc) = 8%nat /\
    NoDup (map fst (assets sc)) /\
    (PyFloat.lt yield_curve 0 = true <->
     risk sc = "⚠️ 고위험" \/ risk sc = "⚠️⚠️ 최고위험").
Proof.
  unfold determine_scenario.
  destruct (PyFloat.lt yield_curve 0), (PyFloat.lt policy_spread 0); simpl;
    eexists; (split; [vm_compute; reflexivity|]);
    (split; [reflexivity|]);
    (split; [cbn [assets map fst]; repeat constructor;
             rewrite ?elem_of_cons, ?elem_of_nil;
             intros H; repeat destruct H as [H|H]; try discriminate H;
             exact H|]);
    cbn [risk]; split; try (intros _; auto; fail);
    try discriminate; intros [H|H]; discriminate H.
Qed.

End ScenarioEdges.

(** ** Inversion detection: further properties *)

Section InversionEdges.

Import Inversion InversionSpec.

Lemma find_inversion_periods_periods (s : Series) :
  find_inversion_periods s = Ok (map py_pair (periods s)).
Proof.
  rewrite find_inversion_periods_finish.
  rewrite (loop_refines_scan s _ loop_init []);
    [reflexivity | reflexivity | discriminate].
Qed.

Lemma scan_opened_nonempty (rows : Series) (last_date : date) (s0 : date) :
  scan (Some s0) rows last_date <> [].
Proof.
  induction rows as [|[d v] rest IH]; simpl; [discriminate|].
  destruct (PyFloat.isna v); [exact IH|].
  destruct (PyFloat.ge v 0); [discriminate|exact IH].
Qed.

Lemma scan_none_nil (rows : Series) (last_date : date) :
  scan None rows last_date = [] <->
  Forall (fun r => PyFloat.lt (snd r) 0 = false) rows.
Proof.
  induction rows as [|[d v] rest IH]; simpl.
  - split; [constructor|reflexivity].
  - rewrite Forall_cons. simpl.
    destruct (PyFloat.isna v) eqn:Ena.
    + rewrite IH, (lt_nan_l v 0 Ena). tauto.
    + destruct (PyFloat.lt v 0) eqn:Elt.
      * split; [intros H; destruct (scan_opened_nonempty _ _ _ H)|].
        intros [H _]; discriminate H.
      * rewrite IH. tauto.
Qed.

(** X5. [find_inversion_periods] returns the empty list exactly when no
    value of the series is strictly negative (absent values count as not
    negative); a single negative value anywhere gives at least one interval. *)
Theorem find_inversion_periods_none (s : Series) :
  find_inversion_periods s = Ok []
  <-> Forall (fun r => PyFloat.lt (snd r) 0 = false) s.
Proof.
  rewrite find_inversion_periods_periods, <- (scan_none_nil s
    (default 0 (last (s_index s)))).
  unfold periods. split.
  - intros [= H]. destruct (scan None s _); [reflexivity|discriminate H].
  - intros ->. reflexivity.
Qed.

Lemma scan_endpoints (rows : Series) (last_date : date) :
  forall opened : option date,
    Forall (fun p : date * date =>
              (Some (fst p) = opened \/
               exists v, (fst p, v) ∈ rows /\ PyFloat.lt v 0 = true /\
                         PyFloat.isna v = false) /\
              (snd p = last_date \/
               exists v, (snd p, v) ∈ rows /\ PyFloat.ge v 0 = true))
           (scan opened rows last_date).
Proof.
  induction rows as [|[d v] rest IH]; intros opened.
  - destruct opened; simpl; repeat constructor; auto.
  - assert (Hweak : forall o,
      Forall (fun p : date * date =>
                (Some (fst p) = o \/
                 exists v0, (fst p, v0) ∈ rest /\ PyFloat.lt v0 0 = true /\
                            PyFloat.isna v0 = false) /\
                (snd p = last_date \/
                 exists v0, (snd p, v0) ∈ rest /\ PyFloat.ge v0 0 = true))
             (scan o rest last_date) ->
      forall o', (o = o' \/ (o = Some d /\ PyFloat.lt v 0 = true /\
                             PyFloat.isna v = false) \/ o = None) ->
      Forall (fun p : date * date =>
                (Some (fst p) = o' \/
                 exists v0, (fst p, v0) ∈ (d, v) :: rest /\
                            PyFloat.lt v0 0 = true /\
                            PyFloat.isna v0 = false) /\
                (snd p = last_date \/
                 exists v0, (snd p, v0) ∈ (d, v) :: rest /\
                            PyFloat.ge v0 0 = true))
             (scan o rest last_date)).
    { intros o Ho o' Hrel. eapply Forall_impl; [exact Ho|].
      intros [a b] [Ha Hb]; simpl in *; split.
      - destruct Ha as [Ha|(va & Hin & Hlt & Hna)].
        + destruct Hrel as [E|[[E [Hlt Hna]]|E]].
          * left. congruence.
          * right. exists v. split; [|auto].
            assert (a = d) as -> by congruence. left.
          * congruence.
        + right. exists va. split; [right; exact Hin|auto].
      - destruct Hb as [Hb|(vb & Hin & Hge)]; [left; exact Hb|].
        right. exists vb. split; [right; exact Hin|exact Hge]. }
    cbn [scan]. destruct (PyFloat.isna v) eqn:Ena.
    { apply (Hweak opened (IH opened)). left; reflexivity. }
    destruct opened as [s0|].
    + destruct (PyFloat.ge v 0) eqn:Ege.
      * constructor.
        -- simpl. split; [left; reflexivity|]. right. exists v.
           split; [left|exact Ege].
        -- apply (Hweak None (IH None)). right; right; reflexivity.
      * apply (Hweak (Some s0) (IH (Some s0))). left; reflexivity.
    + destruct (PyFloat.lt v 0) eqn:Elt.
      * apply (Hweak (Some d) (IH (Some d))). right; left. auto.
      * apply (Hweak None (IH None)). left; reflexivity.
Qed.

(** X6. Every interval that [find_inversion_periods] returns starts at the
    date of a row whose value is present and strictly negative, and ends at
    the date of a row whose value is at least 0 or at the last date of the
    series. *)
Theorem find_inversion_periods_endpoints (s : Series) :
  exists ps : list (date * date),
    find_inversion_periods s = Ok (map py_pair ps) /\
    Forall (fun p : date * date =>
              (exists v, (fst p, v) ∈ s /\ PyFloat.lt v 0 = true /\
                         PyFloat.isna v = false) /\
              (snd p = default 0 (last (s_index s)) \/
               exists v, (snd p, v) ∈ s /\ PyFloat.ge v 0 = true))
           ps.
Proof.
  exists (periods s). split; [apply find_inversion_periods_periods|].
  unfold periods.
  eapply Forall_impl; [apply (scan_endpoints s _ None)|].
  intros p [[H|H] Hb]; [discriminate H|]. split; assumption.
Qed.

End InversionEdges.

(** ** Master dataset: further properties *)

Section MasterEdges.

Import Master.

Lemma base_frame_wf (base : Series) :
  df_wf (mkDataFrame (s_index base) {[ "DGS10" := s_values base ]}).
Proof.
  intros c col Hc. simpl in *. apply lookup_singleton_Some in Hc as [_ <-].
  unfold s_values, s_index. rewrite !length_map. reflexivity.
Qed.

Lemma col_sub_length (a b : list float) :
  length a = length b -> length (col_sub a b) = length a.
Proof. intros H. unfold col_sub. rewrite length_zip_with. lia. Qed.

Lemma fillna_length (a b : list float) :
  length a = length b -> length (fillna a b) = length a.
Proof. intros H. unfold fillna. rewrite length_zip_with. lia. Qed.

(** X7. The frame that [build_master_df] returns is rectangular: every
    column is as long as the index. In each of its rows the rate gap is the
    10-year yield minus the federal funds rate and the policy spread is the
    2-year yield minus the effective federal funds rate. *)
Theorem build_master_df_rectangular (sd : SeriesDict) (df : DataFrame) :
  build_master_df sd = Ok df ->
  df_wf df /\
  forall i : nat,
    (i < length (df_index df))%nat ->
    exists d10 d2 ff effr : float,
      cell df "DGS10" i = Some d10 /\ cell df "DGS2" i = Some d2 /\
      cell df "FEDFUNDS" i = Some ff /\ cell df "EFFR" i = Some effr /\
      cell df "RATE_GAP" i = Some (PyFloat.sub d10 ff) /\
      cell df "POLICY_SPREAD" i = Some (PyFloat.sub d2 effr).
Proof.
  intros H.
  destruct (build_master_df_columns sd df H)
    as (base & t & pre & dgs2 & direct & ff & effr & Hbase & Ht & Hpre &
        Hdirect & Hdgs2 & Hff & Heffr & Ldgs2 & Ldirect & Hidx & Hcols).
  destruct (add_columns_spec _ _ _ Hpre) as (Hpidx & Hwf & H10).
  simpl in H10, Hpidx. rewrite lookup_singleton_eq in H10.
  specialize (Hwf (base_frame_wf base)).
  assert (Lidx : length (s_index base) = length (s_values base))
    by (unfold s_index, s_values; rewrite !length_map; reflexivity).
  assert (Lff : length ff = length (s_values base))
    by (rewrite (Hwf _ _ Hff), Hpidx; exact Lidx).
  assert (Leffr : length effr = length (s_values base))
    by (rewrite (Hwf _ _ Heffr), Hpidx; exact Lidx).
  set (mask := base_mask base) in *.
  split.
  - intros c col Hc. rewrite Hcols, lookup_fmap in Hc. rewrite Hidx.
    destruct (_ !! c) as [col0|] eqn:E; [|discriminate Hc].
    injection Hc as <-. apply select_length.
    rewrite Lidx.
    repeat (apply lookup_insert_Some in E as [[_ <-]|[_ E]];
            [rewrite ?fillna_length, ?col_sub_length by
               (rewrite ?col_sub_length; congruence); congruence|]).
    rewrite (Hwf _ _ E), Hpidx. exact Lidx.
  - intros i Hi. rewrite Hidx in Hi.
    assert (Hsome : forall col : list float,
              length col = length (s_values base) ->
              is_Some (select mask col !! i)).
    { intros col Hl. apply lookup_lt_is_Some_2.
      rewrite (select_length mask col (s_index base)) by congruence. exact Hi. }
    destruct (Hsome (s_values base) eq_refl) as [d10 Hd10].
    destruct (Hsome dgs2 Ldgs2) as [d2 Hd2].
    destruct (Hsome ff Lff) as [f Hf].
    destruct (Hsome effr Leffr) as [e He].
    exists d10, d2, f, e. unfold cell. rewrite Hcols, !lookup_fmap.
    split; [rewrite !lookup_insert_ne, H10 by discriminate; exact Hd10|].
    split; [rewrite !lookup_insert_ne, Hdgs2 by discriminate; exact Hd2|].
    split; [rewrite !lookup_insert_ne, Hff by discriminate; exact Hf|].
    split; [rewrite !lookup_insert_ne, Heffr by discriminate; exact He|].
    split.
    + rewrite !lookup_insert_ne, lookup_insert_eq by discriminate. simpl.
      apply cell_select_zip_with; assumption.
    + rewrite lookup_insert_eq. simpl.
      apply cell_select_zip_with; assumption.
Qed.

Lemma build_master_df_rectangular_witness :
  exists df : DataFrame,
    build_master_df MasterExample.one_gap = Ok df /\ df_wf df /\
    cell df "RATE_GAP" 0 = Some (4.0 - 5.0)%float.
Proof.
  destruct (build_master_df MasterExample.one_gap) as [df|e] eqn:E;
    [|vm_compute in E; discriminate E].
  exists df. split; [reflexivity|].
  split; [exact (proj1 (build_master_df_rectangular _ df E))|].
  vm_compute in E. injection E as <-. vm_compute. reflexivity.
Defined.

End MasterEdges.

Section MasterOutcome.

Import Master.

Lemma dict_get_missing (sd : SeriesDict) (key : string) :
  (forall s, dict_get sd key <> Ok s) -> dict_get sd key = Raise (KeyError key).
Proof.
  induction sd as [|[k s] rest IH]; intros H; [reflexivity|].
  cbn [dict_get] in *. destruct (String.eqb k key); [destruct (H s eq_refl)|].
  apply IH, H.
Qed.

Lemma reindex_ffill_ok (s : Series) (target : list date) :
  increasing (s_index s) = true -> exists col, reindex_ffill s target = Ok col.
Proof.
  intros H. unfold reindex_ffill. destruct (decide _); [eauto|].
  rewrite H. eauto.
Qed.

Lemma add_columns_ok (items : SeriesDict) :
  Forall (fun kv => increasing (s_index (snd kv)) = true) items ->
  forall df, exists pre, add_columns items df = Ok pre.
Proof.
  induction 1 as [|[name s] rest Hs Hrest IH]; intros df; [eexists; reflexivity|].
  cbn [add_columns]. destruct (String.eqb name "DGS10"); [apply IH|].
  destruct (reindex_ffill_ok s (df_index df) Hs) as [col ->].
  cbn [mbind result_bind]. apply IH.
Qed.

Lemma add_columns_keeps (items : SeriesDict) (c : string) :
  forall df pre,
    add_columns items df = Ok pre ->
    is_Some (df_columns df !! c) -> is_Some (df_columns pre !! c).
Proof.
  induction items as [|[name s] rest IH]; intros df pre H Hc.
  - injection H as <-. exact Hc.
  - cbn [add_columns] in H.
    destruct (String.eqb name "DGS10"); [eapply IH; eassumption|].
    apply bind_Ok_inv in H as (col & _ & H).
    eapply IH; [exact H|]. unfold set_col; simpl.
    destruct (decide (name = c)) as [->|Hne].
    + rewrite lookup_insert_eq. eauto.
    + rewrite lookup_insert_ne by exact Hne. exact Hc.
Qed.

Lemma add_columns_has (items : SeriesDict) (k : string) (s : Series) :
  k <> "DGS10" ->
  forall df pre,
    add_columns items df = Ok pre -> dict_get items k = Ok s ->
    is_Some (df_columns pre !! k).
Proof.
  intros Hk. induction items as [|[name s0] rest IH]; intros df pre H Hg;
    [discriminate Hg|].
  cbn [add_columns dict_get] in H, Hg.
  destruct (String.eqb name k) eqn:Ek.
  - apply String.eqb_eq in Ek as ->.
    destruct (String.eqb k "DGS10") eqn:E10;
      [apply String.eqb_eq in E10; congruence|].
    apply bind_Ok_inv in H as (col & _ & H).
    eapply add_columns_keeps; [exact H|]. unfold set_col; simpl.
    rewrite lookup_insert_eq. eauto.
  - destruct (String.eqb name "DGS10"); [eapply IH; eassumption|].
    apply bind_Ok_inv in H as (col & _ & H). eapply IH; eassumption.
Qed.


End MasterOutcome.

Section PadFacts.

Import Master.

Lemma pad_fold_later (rows : list (date * float)) (t : date) (found : float) :
  Forall (fun r => t < fst r) rows ->
  fold_left (fun found (row : date * float) =>
               if fst row <=? t then snd row else found) rows found = found.
Proof.
  revert found. induction rows as [|r rows IH]; intros found H; [reflexivity|].
  apply Forall_cons in H as [Hr Hrows]. simpl in Hr |- *.
  destruct (Z.leb_spec (fst r) t); [unfold date in *; lia|]. apply IH, Hrows.
Qed.

Lemma increasing_split (l1 l2 : list (date * float)) (x : date * float) :
  increasing (s_index (l1 ++ x :: l2)) = true ->
  Forall (fun r => fst x < fst r) l2.
Proof.
  induction l1 as [|y l1 IH]; intros H.
  - cbn [app s_index map] in H. apply increasing_cons_lt in H as [_ H].
    apply Forall_forall. intros r Hr. rewrite Forall_forall in H.
    apply H. unfold s_index. apply list_elem_of_fmap. exists r. auto.
  - cbn [app s_index map] in H. apply increasing_cons_lt in H as [H _].
    apply IH, H.
Qed.

(** Padding on a series with increasing dates: the value of the latest row
    that is not after the target date, and [nan] when every row is after it. *)
Lemma pad_lookup_spec (s : Series) (t : date) :
  increasing (s_index s) = true ->
  (forall d v, (d, v) ∈ s -> d <= t ->
     (forall d' v', (d', v') ∈ s -> ~ (d < d' <= t)) ->
     pad_lookup s t = v) /\
  ((forall d v, (d, v) ∈ s -> t < d) -> pad_lookup s t = nan).
Proof.
  intros Hinc. split.
  - intros d v Hin Hle Hgap.
    apply list_elem_of_split in Hin as (l1 & l2 & ->).
    pose proof (increasing_split l1 l2 (d, v) Hinc) as Hl2. simpl in Hl2.
    unfold pad_lookup. rewrite fold_left_app. cbn [fold_left fst snd].
    destruct (Z.leb_spec d t); [|lia].
    apply pad_fold_later. apply Forall_forall. intros [d' v'] Hr.
    rewrite Forall_forall in Hl2. specialize (Hl2 _ Hr). simpl in *.
    destruct (Z.lt_ge_cases t d') as [|Hge]; [assumption|].
    exfalso. apply (Hgap d' v'); [|lia].
    apply elem_of_app. right. right. exact Hr.
  - intros Hall. unfold pad_lookup. apply pad_fold_later.
    apply Forall_forall. intros [d v] Hr. simpl. eapply Hall, Hr.
Qed.

(** X9. Reindexing with forward fill, on a source whose dates are strictly
    increasing: at each target date the new column has the value of the
    latest source row that is not after that date, taken as it is stored
    (an absent value is not skipped), and an absent value at the target dates
    that precede every source row; on an empty source every value is
    absent. *)
Theorem reindex_ffill_pads (s : Series) (target : list date) (col : list float) :
  increasing (s_index s) = true ->
  reindex_ffill s target = Ok col ->
  length col = length target /\
  forall (i : nat) (t : date),
    target !! i = Some t ->
    (forall d v, (d, v) ∈ s -> d <= t ->
       (forall d' v', (d', v') ∈ s -> ~ (d < d' <= t)) ->
       col !! i = Some v) /\
    ((forall d v, (d, v) ∈ s -> t < d) -> col !! i = Some nan).
Proof.
  intros Hinc H. split; [eapply reindex_ffill_length, H|].
  intros i t Ht.
  assert (Hpad : col !! i = Some (pad_lookup s t)).
  { unfold reindex_ffill in H. destruct (decide (s_index s = target)) as [E|E].
    - injection H as <-. subst target. unfold s_index, s_values in *.
      rewrite list_lookup_fmap in Ht. rewrite list_lookup_fmap.
      match type of Ht with
      | fst <$> ?x = _ => destruct x as [[d v]|] eqn:Es
      end; simpl in Ht; [|discriminate Ht].
      injection Ht as <-. simpl. f_equal. symmetry.
      apply (proj1 (pad_lookup_spec s d Hinc) d v).
      + eapply list_elem_of_lookup_2, Es.
      + lia.
      + intros; lia.
    - rewrite Hinc in H. injection H as <-.
      rewrite list_lookup_fmap, Ht. reflexivity. }
  rewrite Hpad. destruct (pad_lookup_spec s t Hinc) as [H1 H2].
  split.
  - intros d v Hin Hle Hgap. f_equal. apply (H1 d v); assumption.
  - intros Hall. f_equal. apply H2, Hall.
Qed.

Lemma reindex_ffill_pads_witness :
  reindex_ffill [(2, 1.5%float); (5, nan)] [1; 2; 3; 5; 9]
  = Ok [nan; 1.5%float; 1.5%float; nan; nan] /\
  length [nan; 1.5%float; 1.5%float; nan; nan] = length [1; 2; 3; 5; 9 : date].
Proof.
  split; [reflexivity|].
  exact (proj1 (reindex_ffill_pads [(2, 1.5%float); (5, nan)] [1; 2; 3; 5; 9]
                  [nan; 1.5%float; 1.5%float; nan; nan] eq_refl eq_refl)).
Defined.

End PadFacts.

Section MasterThenRisk.

Import Master Risk.

Lemma build_master_df_wf (sd : SeriesDict) (df : DataFrame) :
  build_master_df sd = Ok df -> df_wf df.
Proof.
  intros H.
  destruct (build_master_df_columns sd df H)
    as (base & t & pre & dgs2 & direct & ff & effr & Hbase & Ht & Hpre &
        Hdirect & Hdgs2 & Hff & Heffr & Ldgs2 & Ldirect & Hidx & Hcols).
  destruct (add_columns_spec _ _ _ Hpre) as (Hpidx & Hwf & H10).
  simpl in H10, Hpidx. rewrite lookup_singleton_eq in H10.
  specialize (Hwf (base_frame_wf base)).
  assert (Lidx : length (s_index base) = length (s_values base))
    by (unfold s_index, s_values; rewrite !length_map; reflexivity).
  assert (Lff : length ff = length (s_values base))
    by (rewrite (Hwf _ _ Hff), Hpidx; exact Lidx).
  assert (Leffr : length effr = length (s_values base))
    by (rewrite (Hwf _ _ Heffr), Hpidx; exact Lidx).
  intros c col Hc. rewrite Hcols, lookup_fmap in Hc. rewrite Hidx.
  destruct (_ !! c) as [col0|] eqn:E; [|discriminate Hc].
  injection Hc as <-. apply select_length. rewrite Lidx.
  repeat (apply lookup_insert_Some in E as [[_ <-]|[_ E]];
          [rewrite ?fillna_length, ?col_sub_length by
             (rewrite ?col_sub_length; congruence); congruence|]).
  rewrite (Hwf _ _ E), Hpidx. exact Lidx.
Qed.

Lemma last_row_cell (df : DataFrame) (c : string) (col : list float) :
  df_wf df -> df_index df <> [] -> df_columns df !! c = Some col ->
  exists v, last col = Some v /\
            omap (fun col : list float => last col) (df_columns df) !! c = Some v.
Proof.
  intros Hwf Hne Hc.
  assert (Hcol : col <> []).
  { intros ->. specialize (Hwf _ _ Hc). destruct (df_index df); [congruence|].
    discriminate Hwf. }
  destruct (last col) as [v|] eqn:E.
  - exists v. split; [reflexivity|]. rewrite lookup_omap, Hc. exact E.
  - apply last_None in E. congruence.
Qed.

(** X10. The frame of [build_master_df] can be handed to
    [assess_macro_risk]: when the builder returns a frame with at least one
    row, from a dict that has the high-yield series, the assessment returns
    (no [IndexError], no [KeyError]), and the 10-year yield of the latest row
    it reports is present. *)
Theorem build_then_assess (sd : SeriesDict) (df : DataFrame) :
  build_master_df sd = Ok df ->
  df_index df <> [] ->
  (exists s, dict_get sd "HY_SPREAD" = Ok s) ->
  exists (r : assessment) (d10 : float),
    assess_macro_risk df = Ok r /\
    latest r !! "DGS10" = Some d10 /\ PyFloat.isna d10 = false.
Proof.
  intros H Hne [hs Hhs].
  pose proof (build_master_df_wf sd df H) as Hwf.
  destruct (build_master_df_columns sd df H)
    as (base & t & pre & dgs2 & direct & ff & effr & Hbase & Ht & Hpre &
        Hdirect & Hdgs2 & Hff & Heffr & Ldgs2 & Ldirect & Hidx & Hcols).
  destruct (build_master_df_rows sd df H) as (base' & Hb' & _ & H10 & _).
  assert (base' = base) as -> by congruence.
  destruct (add_columns_has sd "HY_SPREAD" hs ltac:(discriminate) _ _ Hpre Hhs)
    as [hy Hhy].
  assert (Hrow : iloc_last df
                 = Ok (omap (fun col : list float => last col) (df_columns df))).
  { unfold iloc_last. destruct (df_index df); [congruence|reflexivity]. }
  edestruct (last_row_cell df "YIELD_CURVE") as (yc & _ & Eyc);
    [exact Hwf | exact Hne | |].
  { rewrite Hcols, lookup_fmap, !lookup_insert_ne, lookup_insert_eq
      by discriminate. reflexivity. }
  destruct (last_row_cell df "DGS10" _ Hwf Hne H10) as (d10 & Hl10 & Ed10).
  edestruct (last_row_cell df "HY_SPREAD") as (h & _ & Eh);
    [exact Hwf | exact Hne | |].
  { rewrite Hcols, lookup_fmap, !lookup_insert_ne, Hhy by discriminate.
    reflexivity. }
  edestruct (last_row_cell df "RATE_GAP") as (rg & _ & Erg);
    [exact Hwf | exact Hne | |].
  { rewrite Hcols, lookup_fmap, !lookup_insert_ne, lookup_insert_eq
      by discriminate. reflexivity. }
  eexists _, d10. split; [eapply assess_macro_risk_eq; eassumption|].
  split; [exact Ed10|].
  pose proof (dropna_present (s_values base)) as Hp.
  rewrite Forall_forall in Hp. apply Hp.
  apply last_Some_elem_of. exact Hl10.
Qed.

Lemma build_then_assess_witness :
  exists (df : DataFrame) (r : assessment),
    build_master_df (MasterExample.one_gap ++ [("HY_SPREAD", [(1, 3.0%float)])])
    = Ok df /\
    assess_macro_risk df = Ok r.
Proof.
  destruct (build_master_df
              (MasterExample.one_gap ++ [("HY_SPREAD", [(1, 3.0%float)])]))
    as [df|e] eqn:E; [|vm_compute in E; discriminate E].
  destruct (build_then_assess _ df E) as (r & d10 & Hr & _).
  - vm_compute in E. injection E as <-. discriminate.
  - eexists. reflexivity.
  - exists df, r. split; [reflexivity|exact Hr].
Defined.

End MasterThenRisk.

(** ** The pipeline when the provider is down *)

Section ProviderDown.

Import App.

Variable fred_get_series : Z -> string -> date -> result Series.
Hypothesis provider_down :
  forall t series_id start_date, exists e,
    fred_get_series t series_id start_date = Raise e.

(** Every series that the fetch cache holds is empty. *)
Definition only_empty_cached (w : world) : Prop :=
  forall k v t, fetch_cache w !! k = Some (v, t) -> v = [].

(** The dict of sixteen empty series. *)
Definition all_empty : Master.SeriesDict :=
  map (fun entry : string * string * string => (fst (fst entry), [])) SERIES.

Lemma fetch_down (series_id : string) (start_date : date) (name : string)
    (w : world) :
  only_empty_cached w ->
  exists w',
    fetch_series_with_ffill fred_get_series series_id start_date name w
    = (Returned [], w') /\
    only_empty_cached w'.
Proof.
  intros HI. unfold fetch_series_with_ffill, cache_data.
  assert (Hbody : exists w1,
    fetch_series_with_ffill_body fred_get_series
      (series_id, start_date, name) w = (Returned [], w1) /\
    fetch_cache w1 = fetch_cache w).
  { unfold fetch_series_with_ffill_body, try_except, get_series, mbind, M_bind.
    cbv beta. destruct (provider_down (clock w) series_id start_date) as [e ->].
    cbn. eexists. split; reflexivity. }
  destruct Hbody as (w1 & Hb & Hc).
  assert (Hstore : only_empty_cached
            (write_fetch_cache
               (<[(series_id, start_date, name) := ([], clock w1)]>
                  (fetch_cache w1)) w1)).
  { intros k v t. unfold write_fetch_cache. cbn [fetch_cache].
    unfold cache in *. rewrite lookup_insert.
    destruct (decide _); [intros [= <- _]; reflexivity|].
    rewrite Hc. apply HI. }
  destruct (fetch_cache w !! (series_id, start_date, name)) as [[v t]|] eqn:E.
  - destruct (clock w <? t + 3600).
    + exists w. rewrite (HI _ _ _ E). split; [reflexivity|exact HI].
    + rewrite Hb. eexists. split; [reflexivity|exact Hstore].
  - rewrite Hb. eexists. split; [reflexivity|exact Hstore].
Qed.

Lemma for_each_cons_returned {A B : Type} (f : A -> M B) (a : A) (l : list A)
    (w w1 w2 : world) (b : B) (bs : list B) :
  f a w = (Returned b, w1) -> for_each f l w1 = (Returned bs, w2) ->
  for_each f (a :: l) w = (Returned (b :: bs), w2).
Proof.
  intros Ha Hl. cbn [for_each]. unfold mbind, M_bind. rewrite Ha, Hl.
  reflexivity.
Qed.

Lemma for_each_down (start_date : date) (l : list (string * string * string)) :
  forall w,
    only_empty_cached w ->
    exists w',
      for_each (fun entry : string * string * string =>
                  let '(key, series_id, name) := entry in
                  s ← fetch_series_with_ffill fred_get_series series_id
                        start_date name;
                  mret (key, s)) l w
      = (Returned (map (fun entry : string * string * string =>
                          (fst (fst entry), [])) l), w') /\
      only_empty_cached w'.
Proof.
  induction l as [|[[key series_id] name] l IH]; intros w HI.
  - exists w. split; [reflexivity|exact HI].
  - destruct (fetch_down series_id start_date name w HI) as (w1 & Hf & HI1).
    destruct (IH w1 HI1) as (w2 & Hr & HI2).
    exists w2. split; [|exact HI2].
    cbn [map fst].
    apply (for_each_cons_returned _ _ _ w w1 w2); [|exact Hr].
    unfold mbind, M_bind. rewrite Hf. reflexivity.
Qed.

End ProviderDown.

Module DownExample.

Import App.

(** A provider that fails on every request. *)
Definition down (t : Z) (series_id : string) (start_date : date) : result Series :=
  Raise (ProviderError "Bad Request").

Definition cold : world := mkWorld (Some true) (SecretsLoaded None) [] [] 0 ∅ ∅.

End DownExample.

Section ProviderDownTheorem.

Import App.

(** X11. When every request to the provider fails and nothing but empty
    series is cached, [load_all_series] still returns: the dict of the
    sixteen keys, each with an empty series. [build_master_df] turns that
    dict into a frame without rows, and on that frame [assess_macro_risk]
    raises [IndexError]: the failure that the fetch contains comes back at
    [df.iloc[-1]]. *)
Theorem pipeline_when_provider_down
    (fred_get_series : Z -> string -> date -> result Series)
    (start_date : date) (w : world) :
  (forall t series_id sd, exists e, fred_get_series t series_id sd = Raise e) ->
  only_empty_cached w ->
  batch_miss start_date w ->
  exists (w' : world) (df : DataFrame),
    load_all_series fred_get_series start_date w = (Returned all_empty, w') /\
    map fst all_empty = map (fun entry => fst (fst entry)) SERIES /\
    Master.build_master_df all_empty = Ok df /\
    df_index df = [] /\
    Risk.assess_macro_risk df = Raise IndexError.
Proof.
  intros Hdown HI Hmiss.
  set (w0 := snd (render (UiSpinner "📡 FRED API에서 데이터 수집 중...") w)).
  destruct (for_each_down fred_get_series Hdown start_date SERIES w0)
    as (w1 & Hr & _); [exact HI|].
  assert (Hbody : load_all_series_body fred_get_series start_date w
                  = (Returned all_empty, w1)).
  { unfold load_all_series_body, mbind, M_bind. cbn [render modify].
    exact Hr. }
  destruct (Master.build_master_df all_empty) as [df|e] eqn:E;
    [|vm_compute in E; discriminate E].
  assert (Hdf : df_index df = [] /\ Risk.assess_macro_risk df = Raise IndexError).
  { vm_compute in E. injection E as <-. split; reflexivity. }
  unfold load_all_series, cache_data, batch_miss in *.
  destruct (load_cache w !! start_date) as [[v t]|].
  - rewrite Hmiss, Hbody. eexists _, df.
    split; [reflexivity|]. split; [reflexivity|]. split; [reflexivity|exact Hdf].
  - rewrite Hbody. eexists _, df.
    split; [reflexivity|]. split; [reflexivity|]. split; [reflexivity|exact Hdf].
Qed.

Lemma pipeline_when_provider_down_witness :
  exists (w' : world) (df : DataFrame),
    load_all_series DownExample.down 19000 DownExample.cold
    = (Returned all_empty, w') /\
    Master.build_master_df all_empty = Ok df /\
    Risk.assess_macro_risk df = Raise IndexError.
Proof.
  destruct (pipeline_when_provider_down DownExample.down 19000 DownExample.cold)
    as (w' & df & H1 & _ & H2 & _ & H3).
  - intros t series_id sd. eexists. reflexivity.
  - intros k v t Hk. vm_compute in Hk. discriminate Hk.
  - exact I.
  - exists w', df. auto.
Defined.

End ProviderDownTheorem.

(** ** Section parsing: the shape of the result *)

Section TextShape.

Import Text.

Lemma lstrip_head (s : str) (c : codepoint) (rest : str) :
  lstrip s = c :: rest -> isspace c = false.
Proof.
  induction s as [|a s IH]; [discriminate|]. simpl.
  destruct (isspace a) eqn:E; [exact IH|]. intros [= <- _]. exact E.
Qed.

Lemma lstrip_suffix (s : str) : exists pre, s = pre ++ lstrip s.
Proof.
  induction s as [|a s [pre IH]]; [exists []; reflexivity|]. simpl.
  destruct (isspace a); [exists (a :: pre); simpl; congruence|].
  exists []. reflexivity.
Qed.

Lemma strip_first (s : str) (c : codepoint) (rest : str) :
  strip s = c :: rest -> isspace c = false.
Proof.
  unfold strip, rstrip. intros H.
  destruct (lstrip_suffix (rev (lstrip s))) as [pre Hp].
  apply (f_equal (@rev codepoint)) in Hp.
  rewrite rev_involutive, rev_app_distr, H in Hp.
  apply (lstrip_head s c (rest ++ rev pre)). exact Hp.
Qed.

Lemma strip_last (s : str) (c : codepoint) (pre : str) :
  strip s = pre ++ [c] -> isspace c = false.
Proof.
  unfold strip, rstrip. intros H.
  apply (f_equal (@rev codepoint)) in H.
  rewrite rev_involutive, rev_app_distr in H. simpl in H.
  eapply lstrip_head, H.
Qed.

(** X12. A section that [extract_section] returns has no white space at
    either end: its first and its last code point are not white space (the
    section may be empty). *)
Theorem extract_section_stripped (text : pyobj) (section_name r : str) :
  extract_section text section_name = Some r ->
  (forall c rest, r = c :: rest -> isspace c = false) /\
  (forall c pre, r = pre ++ [c] -> isspace c = false).
Proof.
  unfold extract_section. destruct text as [|t]; [discriminate|].
  destruct (negb (contains section_name t)); [discriminate|].
  intros [= <-]. split.
  - intros c rest H. eapply strip_first, H.
  - intros c pre H. eapply strip_last, H.
Qed.

Lemma extract_section_stripped_witness :
  extract_section (PyStr (lit "STRATEGY:   hold cash  ```"))
                  (lit "STRATEGY:")
  = Some (lit "hold cash") /\
  (forall c rest, lit "hold cash" = c :: rest -> isspace c = false).
Proof.
  split; [vm_compute; reflexivity|].
  exact (proj1 (extract_section_stripped
                  (PyStr (lit "STRATEGY:   hold cash  ```"))
                  (lit "STRATEGY:") (lit "hold cash") eq_refl)).
Defined.

End TextShape.

(** ** The login gate: what it never does *)

Section LoginSafety.

Import App.

Ltac eval_check :=
  cbv -[lookup String.eqb app username password submit_btn
        msg_wrong_password msg_no_such_user exn_str String.append].

Ltac case_lookup :=
  match goal with
  | |- context [@lookup ?K ?A ?M ?L ?k ?m] =>
      destruct (@lookup K A M L k m) as [expected|] eqn:Elook
  end.

(** X13. [check_password] never raises: it returns or asks for a rerun.
    When the secrets store cannot be read, a submission renders the generic
    login error with the text of the exception and the check returns false
    with the session flag as it was. The session is authenticated after a
    check only if it was before, or the form was submitted with a username of
    the password table and exactly its password: no other path sets the
    flag. *)
Theorem check_password_safe (inp : form_input) (w : world) :
  (forall e, fst (check_password inp w) <> Raised e) /\
  (forall e, secrets w = SecretsBroken e -> authenticated w = false ->
             submit_btn inp = true ->
   exists w',
     check_password inp w = (Returned false, w') /\
     ui w' = ui w ++ login_prompt
                  ++ [UiError ("로그인 오류: " +:+ exn_str e)] /\
     password_correct w' = password_correct w) /\
  (authenticated (snd (check_password inp w)) = true ->
   authenticated w = true \/
   (submit_btn inp = true /\
    exists table, secrets w = SecretsLoaded (Some table) /\
                  table !! username inp = Some (password inp))).
Proof.
  destruct w as [pc sec u calls clk fc lc].
  split; [|split].
  - intros e.
    destruct pc as [[|]|]; eval_check; try discriminate;
      (destruct (submit_btn inp); [|discriminate]);
      (destruct sec as [e0|[t|]]; eval_check; try discriminate);
      (case_lookup; [|discriminate]);
      destruct (String.eqb (password inp) expected); discriminate.
  - intros e Hsec Hna Hsub. cbn in Hsec. subst sec.
    unfold authenticated in Hna. cbn in Hna.
    destruct pc as [[|]|]; try discriminate Hna; eval_check; rewrite Hsub;
      eval_check; eexists; (split; [reflexivity|]); eval_check;
      rewrite <- ?app_assoc; split; reflexivity.
  - unfold authenticated.
    destruct pc as [[|]|]; eval_check; auto;
      (destruct (submit_btn inp); eval_check; [|discriminate]);
      (destruct sec as [e0|[t|]]; eval_check; try discriminate);
      (case_lookup; eval_check; [|discriminate]);
      (destruct (String.eqb (password inp) expected) eqn:Ep; eval_check;
       [|discriminate]);
      intros _; right; (split; [reflexivity|]); exists t;
      (split; [reflexivity|]);
      apply String.eqb_eq in Ep; subst expected; exact Elook.
Qed.

End LoginSafety.

(** ** Caching of a failed fetch *)

Section FailedFetch.

Import App.

Variable fred_get_series : Z -> string -> date -> result Series.

(** The fetch cache has no entry for the arguments that is still valid. *)
Definition fetch_miss (args : string * date * string) (w : world) : Prop :=
  match fetch_cache w !! args with
  | Some (_, stored_at) => (clock w <? stored_at + 3600) = false
  | None => True
  end.

(** X14. A failure is cached like a success. When a fetch that is not
    served from the cache meets a failing provider at time [t1], it returns
    the empty series, and every fetch of the same identifier, start date and
    name less than 3600 seconds later returns the empty series again without
    calling the provider, whatever the provider would answer by then. *)
Theorem failed_fetch_is_cached (series_id : string) (start_date : date)
    (name : string) (w : world) (t1 t2 : Z) (e : exn) :
  fetch_miss (series_id, start_date, name) (at_time t1 w) ->
  fred_get_series t1 series_id start_date = Raise e ->
  t2 < t1 + 3600 ->
  exists w1,
    fetch_series_with_ffill fred_get_series series_id start_date name
      (at_time t1 w) = (Returned [], w1) /\
    provider_calls w1 = provider_calls w ++ [(series_id, start_date)] /\
    fetch_series_with_ffill fred_get_series series_id start_date name
      (at_time t2 w1) = (Returned [], at_time t2 w1) /\
    provider_calls (at_time t2 w1) = provider_calls w1.
Proof.
  intros Hmiss Hfail Ht.
  assert (Hbody : exists w0,
    fetch_series_with_ffill_body fred_get_series
      (series_id, start_date, name) (at_time t1 w) = (Returned [], w0) /\
    clock w0 = t1 /\
    provider_calls w0 = provider_calls w ++ [(series_id, start_date)]).
  { unfold fetch_series_with_ffill_body, try_except, get_series, mbind, M_bind.
    cbv beta. cbn [at_time clock]. rewrite Hfail. cbn.
    eexists. split; [reflexivity|]. split; reflexivity. }
  destruct Hbody as (w0 & Hb & Hclk & Hcalls).
  set (w1 := write_fetch_cache
               (<[(series_id, start_date, name) := ([], clock w0)]>
                  (fetch_cache w0)) w0).
  assert (H1 : fetch_series_with_ffill fred_get_series series_id start_date
                 name (at_time t1 w) = (Returned [], w1)).
  { unfold fetch_series_with_ffill, cache_data, fetch_miss in *.
    destruct (fetch_cache (at_time t1 w) !! (series_id, start_date, name))
      as [[v t]|]; [rewrite Hmiss|]; rewrite Hb; reflexivity. }
  exists w1. split; [exact H1|]. split; [exact Hcalls|].
  split; [|reflexivity].
  unfold fetch_series_with_ffill, cache_data.
  cbn [at_time fetch_cache clock w1 write_fetch_cache]. unfold cache in *.
  rewrite lookup_insert_eq.
  replace (t2 <? clock w0 + 3600) with true
    by (symmetry; apply Z.ltb_lt; lia).
  reflexivity.
Qed.

End FailedFetch.

Module FlakyExample.

(** A provider that fails until time 150 and answers afterwards. *)
Definition flaky (t : Z) (series_id : string) (start_date : date)
    : result Series :=
  if t <? 150 then Raise (ProviderError "Too Many Requests")
  else Ok [(19000, 4.0%float)].

End FlakyExample.

Lemma failed_fetch_is_cached_witness :
  exists w1,
    App.fetch_series_with_ffill FlakyExample.flaky "DGS10" 19000 "10y"
      (App.at_time 100 DownExample.cold) = (App.Returned [], w1) /\
    App.fetch_series_with_ffill FlakyExample.flaky "DGS10" 19000 "10y"
      (App.at_time 200 w1) = (App.Returned [], App.at_time 200 w1) /\
    FlakyExample.flaky 200 "DGS10" 19000 = Ok [(19000, 4.0%float)].
Proof.
  destruct (failed_fetch_is_cached FlakyExample.flaky "DGS10" 19000 "10y"
              DownExample.cold 100 200 (ProviderError "Too Many Requests"))
    as (w1 & H1 & _ & H2 & _); [exact I | reflexivity | lia |].
  exists w1. split; [exact H1|]. split; [exact H2|reflexivity].
Defined.

(** ** Forward fill *)

Section FillFacts.

Import App.

Lemma ffill_from_present (s : Series) :
  forall prev, PyFloat.isna prev = false ->
    Forall (fun r => PyFloat.isna (snd r) = false) (ffill_from prev s).
Proof.
  induction s as [|[d v] s IH]; intros prev Hp; [constructor|].
  cbn [ffill_from]. destruct (PyFloat.isna v) eqn:E.
  - constructor; [exact Hp|apply IH, Hp].
  - constructor; [exact E|apply IH, E].
Qed.

Lemma ffill_from_no_gap (s : Series) :
  forall prev (i j : nat) (r : date * float),
    ffill_from prev s !! i = Some r -> PyFloat.isna (snd r) = false ->
    (i <= j < length s)%nat ->
    exists r', ffill_from prev s !! j = Some r' /\ PyFloat.isna (snd r') = false.
Proof.
  induction s as [|[d v] s IH]; intros prev i j r Hi Hr Hij;
    [simpl in Hij; lia|].
  cbn [ffill_from] in *. simpl in Hij.
  set (v' := if PyFloat.isna v then prev else v) in *.
  destruct i as [|i].
  - injection Hi as <-. simpl in Hr. destruct j as [|j]; [eauto|].
    cbn [lookup list_lookup].
    pose proof (ffill_from_present s v' Hr) as Hall.
    destruct (lookup_lt_is_Some_2 (ffill_from v' s) j) as [r' Hr'].
    { assert (length (ffill_from v' s) = length s) as ->; [|lia].
      rewrite <- (length_map fst (ffill_from v' s)).
      change (map fst (ffill_from v' s)) with (s_index (ffill_from v' s)).
      rewrite ffill_from_index. apply length_map. }
    exists r'. split; [exact Hr'|].
    rewrite Forall_forall in Hall. apply Hall.
    eapply list_elem_of_lookup_2, Hr'.
  - destruct j as [|j]; [lia|]. cbn [lookup list_lookup] in *.
    apply (IH v' i j r Hi Hr). lia.
Qed.

Lemma ffill_from_keeps (s : Series) :
  forall prev (i : nat) (d : date) (v : float),
    s !! i = Some (d, v) -> PyFloat.isna v = false ->
    ffill_from prev s !! i = Some (d, v).
Proof.
  induction s as [|[d0 v0] s IH]; intros prev i d v Hi Hv; [discriminate Hi|].
  cbn [ffill_from]. destruct i as [|i].
  - injection Hi as -> ->. rewrite Hv. reflexivity.
  - cbn [lookup list_lookup] in *. apply IH; assumption.
Qed.

(** X15. Forward fill keeps the dates and every value that is present,
    and leaves no gap behind a value: once a position of the filled series
    holds a value, every later position holds one too (absent values can
    remain only at the start of the series). *)
Theorem ffill_no_gap (s : Series) :
  s_index (ffill s) = s_index s /\
  (forall i d v, s !! i = Some (d, v) -> PyFloat.isna v = false ->
                 ffill s !! i = Some (d, v)) /\
  (forall i j r,
     ffill s !! i = Some r -> PyFloat.isna (snd r) = false ->
     (i <= j < length s)%nat ->
     exists r', ffill s !! j = Some r' /\ PyFloat.isna (snd r') = false).
Proof.
  unfold ffill. split; [apply ffill_from_index|].
  split; [intros i d v; apply ffill_from_keeps|].
  intros i j r. apply ffill_from_no_gap.
Qed.

End FillFacts.

(** ** Section parsing: code fences *)

Section FenceFacts.

Import Text.

(** The back quote. *)
Definition bq : codepoint := 96%N.

Lemma fence_bq : fence = [bq; bq; bq].
Proof. reflexivity. Qed.

Lemma replace_fence_other (c : codepoint) (t : str) :
  c <> bq -> replace fence [] (c :: t) = c :: replace fence [] t.
Proof.
  intros Hc. unfold replace. cbn [replace_go].
  replace (startswith fence (c :: t)) with false; [reflexivity|].
  rewrite fence_bq. cbn [startswith].
  destruct (N.eqb_spec bq c); [congruence|reflexivity].
Qed.

Lemma replace_fence_fence (t : str) :
  replace fence [] (bq :: bq :: bq :: t) = replace fence [] t.
Proof. reflexivity. Qed.

Lemma replace_fence_one (t : str) :
  (forall t', t <> bq :: bq :: t') ->
  replace fence [] (bq :: t) = bq :: replace fence [] t.
Proof.
  intros Ht. unfold replace. cbn [replace_go].
  replace (startswith fence (bq :: t)) with false; [reflexivity|].
  symmetry. rewrite fence_bq. cbn [startswith]. rewrite N.eqb_refl. cbn [andb].
  destruct t as [|a [|b t']]; cbn [startswith]; try reflexivity.
  - rewrite andb_false_r. reflexivity.
  - destruct (N.eqb_spec bq a) as [<-|]; [|reflexivity].
    destruct (N.eqb_spec bq b) as [<-|]; [|reflexivity].
    destruct (Ht t' eq_refl).
Qed.

(** A string without a fence in it. *)
Definition fence_free (r : str) : Prop :=
  forall pre post, r <> pre ++ fence ++ post.

Lemma fence_free_cons_other (c : codepoint) (r : str) :
  c <> bq -> fence_free r -> fence_free (c :: r).
Proof.
  intros Hc Hr pre post H. destruct pre as [|p pre].
  - rewrite fence_bq in H. injection H as H _. congruence.
  - injection H as _ H. apply (Hr pre post H).
Qed.

Lemma fence_free_cons_bq (r : str) :
  (forall t', r <> bq :: bq :: t') -> fence_free r -> fence_free (bq :: r).
Proof.
  intros Hs Hr pre post H. destruct pre as [|p pre].
  - rewrite fence_bq in H. injection H as H. apply (Hs post). exact H.
  - injection H as _ H. apply (Hr pre post H).
Qed.

(** Removing the fences leaves none, and what does not start with two back
    quotes does not start with two afterwards. *)
Lemma replace_fence_free (n : nat) :
  forall s : str,
    (length s <= n)%nat ->
    fence_free (replace fence [] s) /\
    ((forall t', s <> bq :: bq :: t') ->
     forall t', replace fence [] s <> bq :: bq :: t').
Proof.
  induction n as [|n IH]; intros s Hn.
  - destruct s; [|simpl in Hn; lia]. split.
    + intros [|p pre] post H; discriminate H.
    + intros _ t' H. discriminate H.
  - destruct s as [|c s]; [apply (IH []); simpl; lia|].
    simpl in Hn. destruct (N.eq_dec c bq) as [->|Hc].
    + destruct s as [|c2 s2].
      * split; [|intros _ t' H; discriminate H].
        intros [|p [|q pre]] post H; discriminate H.
      * destruct (N.eq_dec c2 bq) as [->|Hc2].
        -- destruct s2 as [|c3 s3].
           ++ split; [|intros Hs; destruct (Hs [] eq_refl)].
              intros [|p [|q [|x pre]]] post H; discriminate H.
           ++ destruct (N.eq_dec c3 bq) as [->|Hc3].
              ** rewrite replace_fence_fence. split.
                 --- apply (IH s3). simpl in Hn. lia.
                 --- intros Hs. destruct (Hs (bq :: s3) eq_refl).
              ** split; [|intros Hs; destruct (Hs (c3 :: s3) eq_refl)].
                 assert (H1 : forall t', bq :: c3 :: s3 <> bq :: bq :: t')
                   by (intros t' H; congruence).
                 assert (H2 : forall t', c3 :: s3 <> bq :: bq :: t')
                   by (intros t' H; congruence).
                 rewrite (replace_fence_one _ H1), (replace_fence_one _ H2).
                 rewrite (replace_fence_other c3 s3 Hc3).
                 destruct (IH s3 ltac:(simpl in Hn; lia)) as [Hf _].
                 apply fence_free_cons_bq; [intros t' H; congruence|].
                 apply fence_free_cons_bq; [intros t' H; congruence|].
                 apply fence_free_cons_other; assumption.
        -- assert (H1 : forall t', c2 :: s2 <> bq :: bq :: t')
             by (intros t' H; congruence).
           rewrite (replace_fence_one _ H1), (replace_fence_other c2 s2 Hc2).
           destruct (IH s2 ltac:(simpl in Hn; lia)) as [Hf _].
           split.
           ++ apply fence_free_cons_bq; [intros t' H; congruence|].
              apply fence_free_cons_other; assumption.
           ++ intros _ t' H. congruence.
    + rewrite (replace_fence_other c s Hc).
      destruct (IH s ltac:(lia)) as [Hf _]. split.
      * apply fence_free_cons_other; assumption.
      * intros _ t' H. congruence.
Qed.

End FenceFacts.

Section FenceTheorem.

Import Text.

Lemma strip_infix (t : str) : exists pre post, t = pre ++ strip t ++ post.
Proof.
  destruct (lstrip_suffix t) as [p1 H1].
  destruct (lstrip_suffix (rev (lstrip t))) as [p2 H2].
  exists p1, (rev p2). unfold strip, rstrip.
  apply (f_equal (@rev codepoint)) in H2.
  rewrite rev_involutive, rev_app_distr in H2.
  rewrite <- H2. exact H1.
Qed.

Lemma strip_fence_free (t : str) : fence_free t -> fence_free (strip t).
Proof.
  intros Ht pre post H. destruct (strip_infix t) as (p & q & Hp).
  apply (Ht (p ++ pre) (post ++ q)). rewrite Hp, H.
  rewrite <- !app_assoc. reflexivity.
Qed.

(** X16. A section that [extract_section] returns never contains a code
    fence: after the removal no three back quotes in a row are left, also
    when the fence itself is the marker asked for or the text has longer
    runs of back quotes. *)
Theorem extract_section_fence_free (text : pyobj) (section_name r : str) :
  extract_section text section_name = Some r ->
  forall pre post, r <> pre ++ fence ++ post.
Proof.
  unfold extract_section. destruct text as [|t]; [discriminate|].
  destruct (negb (contains section_name t)); [discriminate|].
  intros [= <-]. apply strip_fence_free.
  eapply (proj1 (replace_fence_free _ _ (Nat.le_refl _))).
Qed.

Lemma extract_section_fence_free_witness :
  extract_section (PyStr (lit "``` a ```` b `````"))  (lit "```")
  = Some (lit "a ` b ``") /\
  forall pre post, lit "a ` b ``" <> pre ++ fence ++ post.
Proof.
  split; [vm_compute; reflexivity|].
  exact (extract_section_fence_free (PyStr (lit "``` a ```` b `````"))
           (lit "```") (lit "a ` b ``") eq_refl).
Defined.

End FenceTheorem.

(** ** The batch fetch: keys and provider calls *)

Section BatchCalls.

Import App.

Variable fred_get_series : Z -> string -> date -> result Series.

(** The provider log grew by at most [n] calls. *)
Definition calls_within (n : nat) (w w' : world) : Prop :=
  exists extra, provider_calls w' = provider_calls w ++ extra /\
                (length extra <= n)%nat.

Lemma fetch_calls (series_id : string) (start_date : date) (name : string)
    (w : world) :
  exists (s : Series) (w' : world),
    fetch_series_with_ffill fred_get_series series_id start_date name w
    = (Returned s, w') /\
    calls_within 1 w w'.
Proof.
  destruct (fetch_body_cases fred_get_series series_id start_date name w)
    as (s & w1 & Hb & Hcalls & _).
  unfold fetch_series_with_ffill, cache_data.
  destruct (fetch_cache w !! (series_id, start_date, name)) as [[v t]|];
    [destruct (clock w <? t + 3600)|].
  - exists v, w. split; [reflexivity|]. exists []. rewrite app_nil_r.
    split; [reflexivity|simpl; lia].
  - rewrite Hb. eexists _, _. split; [reflexivity|].
    exists [(series_id, start_date)]. split; [exact Hcalls|simpl; lia].
  - rewrite Hb. eexists _, _. split; [reflexivity|].
    exists [(series_id, start_date)]. split; [exact Hcalls|simpl; lia].
Qed.

Lemma for_each_calls (start_date : date) (l : list (string * string * string)) :
  forall w,
    exists (sd : Master.SeriesDict) (w' : world),
      for_each (fun entry : string * string * string =>
                  let '(key, series_id, name) := entry in
                  s ← fetch_series_with_ffill fred_get_series series_id
                        start_date name;
                  mret (key, s)) l w
      = (Returned sd, w') /\
      map fst sd = map (fun entry => fst (fst entry)) l /\
      calls_within (length l) w w'.
Proof.
  induction l as [|[[key series_id] name] l IH]; intros w.
  - exists [], w. split; [reflexivity|]. split; [reflexivity|].
    exists []. rewrite app_nil_r. split; [reflexivity|simpl; lia].
  - destruct (fetch_calls series_id start_date name w)
      as (s & w1 & Hf & (e1 & Hc1 & Hl1)).
    destruct (IH w1) as (sd & w2 & Hr & Hkeys & (e2 & Hc2 & Hl2)).
    exists ((key, s) :: sd), w2. split; [|split].
    + apply (for_each_cons_returned _ _ _ w w1 w2); [|exact Hr].
      unfold mbind, M_bind. rewrite Hf. reflexivity.
    + cbn [map fst]. rewrite Hkeys. reflexivity.
    + exists (e1 ++ e2). rewrite Hc2, Hc1, <- app_assoc.
      split; [reflexivity|]. rewrite length_app. simpl. lia.
Qed.

(** X17. One call of [load_all_series] asks the provider at most sixteen
    times, and not at all when it is served from the batch cache. When it is
    not served from the cache, the dict it returns has the sixteen keys of
    the source in their order, whatever the provider answers. *)
Theorem load_all_series_keys_calls (start_date : date) (w : world) :
  exists (sd : Master.SeriesDict) (w' : world),
    load_all_series fred_get_series start_date w = (Returned sd, w') /\
    calls_within 16 w w' /\
    (batch_miss start_date w ->
     map fst sd
     = [ "DGS10"; "DGS2"; "T10Y2Y"; "HY_SPREAD"; "IG_SPREAD"; "FEDFUNDS";
         "EFFR"; "WALCL"; "CC_DELINQ"; "CONS_DELINQ"; "AUTO_DELINQ";
         "CRE_DELINQ_ALL"; "CRE_DELINQ_TOP100"; "CRE_DELINQ_SMALL";
         "RE_DELINQ_ALL"; "CRE_LOAN_AMT" ]) /\
    (~ batch_miss start_date w -> w' = w).
Proof.
  set (w0 := snd (render (UiSpinner "📡 FRED API에서 데이터 수집 중...") w)).
  destruct (for_each_calls start_date SERIES w0)
    as (sd & w1 & Hr & Hkeys & Hcalls).
  assert (Hbody : load_all_series_body fred_get_series start_date w
                  = (Returned sd, w1)).
  { unfold load_all_series_body, mbind, M_bind. cbn [render modify].
    exact Hr. }
  unfold load_all_series, cache_data, batch_miss.
  destruct (load_cache w !! start_date) as [[v t]|].
  - destruct (clock w <? t + 3600) eqn:E.
    + exists v, w. split; [reflexivity|]. split.
      * exists []. rewrite app_nil_r. split; [reflexivity|simpl; lia].
      * split; [discriminate|reflexivity].
    + rewrite Hbody. eexists _, _. split; [reflexivity|]. split; [exact Hcalls|].
      split; [intros _; exact Hkeys|]. intros H. destruct (H eq_refl).
  - rewrite Hbody. eexists _, _. split; [reflexivity|]. split; [exact Hcalls|].
    split; [intros _; exact Hkeys|]. intros H. destruct (H I).
Qed.

End BatchCalls.
